(** * Tunnel session protocol and chunked transfer: a shallow embedding

    The development follows the JavaScript sources of the coordinator and of
    the agent:

    - [ConnectionManager]  server/connectionManager.js (session registry)
    - [DownloadManager]    the module server.js requires as ./downloadManager
                           (transfer coordinator)
    - [Server]             server/server.js (plain tunnel handler, HTTP trigger)
    - [ServerMtls]         server/server-mtls.js (mutually authenticated handler)
    - [Agent]              the agent script (reconnect policy)

    Every handler of the single-threaded event loop is embedded as one
    computation of the monad [M]: a function from the process state to an
    outcome (a value or a thrown exception) and the state it leaves behind.
    Mutations made before a [throw] persist, as they do in JavaScript.
    A handler runs to completion: interleavings of two handlers at their
    [await] points are outside the model. *)

From Stdlib Require Import ZArith Lia List Permutation.
From Stdlib Require Import Floats.SpecFloat.
From stdpp Require Import base option list gmap strings pretty.

Local Open Scope string_scope.
Local Open Scope list_scope.
Local Open Scope stdpp_scope.

(** ** Values of the JavaScript runtime *)

Module JS.

(** A [Number] is an IEEE 754 binary64 value. *)
Definition number : Type := spec_float.
Definition prec : Z := 53.
Definition emax : Z := 1024.

Definition of_Z (z : Z) : number := binary_normalize prec emax z 0 false.
Definition NaN : number := S754_nan.
Definition div (x y : number) : number := SFdiv prec emax x y.
Definition mul (x y : number) : number := SFmul prec emax x y.
Definition add (x y : number) : number := SFadd prec emax x y.

(** [undefined] in arithmetic position converts to [NaN]. *)
Definition to_number (o : option Z) : number :=
  match o with
  | Some z => of_Z z
  | None => NaN
  end.

(** A finite number with a negative exponent is [m * 2^e] with
    [m < 2^53], so its magnitude is below [2^52] and the integers next to
    it are exact. [half_up m e] is [floor (m * 2^e + 1/2)] and
    [half_down m e] is [ceil (m * 2^e - 1/2)], for [e < 0]. *)
Definition half_up (m : positive) (e : Z) : Z :=
  ((2 * Z.pos m + 2 ^ (- e)) / 2 ^ (- e + 1))%Z.
Definition half_down (m : positive) (e : Z) : Z :=
  (- ((- (2 * Z.pos m) + 2 ^ (- e)) / 2 ^ (- e + 1)))%Z.

(** [Math.round]: the nearest integer, a tie going towards +infinity. *)
Definition Math_round (x : number) : number :=
  match x with
  | S754_finite s m e =>
      if (0 <=? e)%Z then x
      else if s then binary_normalize prec emax (- half_down m e) 0 true
      else binary_normalize prec emax (half_up m e) 0 false
  | _ => x
  end.

(** [Math.floor]. *)
Definition Math_floor (x : number) : number :=
  match x with
  | S754_finite s m e =>
      if (0 <=? e)%Z then x
      else if s then binary_normalize prec emax ((- Z.pos m) / 2 ^ (- e)) 0 true
      else binary_normalize prec emax (Z.pos m / 2 ^ (- e)) 0 false
  | _ => x
  end.

(** [n + 1] on a counter that holds a non-negative integer: exact below
    [2^53]; at [2^53] the sum [2^53 + 1] is a tie that rounds to the even
    mantissa, that is back to [2^53]. *)
Definition incr (n : Z) : Z := if (n <? 2 ^ 53)%Z then (n + 1)%Z else n.

(** Truthiness of a string that may be [undefined] or [null]. *)
Definition truthy (o : option string) : bool :=
  match o with
  | Some s => negb (String.eqb s "")
  | None => false
  end.

(** Template-literal interpolation of a string that may be [undefined]. *)
Definition interpolate (o : option string) : string :=
  match o with
  | Some s => s
  | None => "undefined"
  end.

Definition bytes : Type := list Byte.byte.

(** An array of buffers, possibly with holes ([None]). *)
Definition array : Type := list (option bytes).

(** [a[i] = v]: in range the slot is overwritten; past the end the array
    is extended, the skipped slots being holes. *)
Definition array_set (a : array) (i : nat) (v : bytes) : array :=
  if decide (i < length a) then <[i := Some v]> a
  else a ++ replicate (i - length a) None ++ [Some v].

(** Reading [a[j]]: [None] for a hole and past the end ([undefined]). *)
Definition slot (a : array) (j : nat) : option bytes := a !! j ≫= id.

(** [Buffer.concat(list)]: throws a [TypeError] ([None]) on a hole, whose
    [length] cannot be read; otherwise the buffers joined in index order. *)
Fixpoint Buffer_concat (a : array) : option bytes :=
  match a with
  | [] => Some []
  | None :: _ => None
  | Some b :: r => app b <$> Buffer_concat r
  end.

End JS.

(** ** Base64 text (RFC 4648, standard alphabet)

    The decoding of [Buffer.from(data, 'base64')] is a parameter of the
    development (see [Platform] below). This decoder is the instance used
    in the examples: it reads sextets up to the first character outside
    the alphabet (the padding [=] included) and emits every complete
    octet. *)

Module Base64.

Definition sextet (c : Ascii.ascii) : option N :=
  let n := Ascii.N_of_ascii c in
  if ((65 <=? n) && (n <=? 90))%N then Some (n - 65)%N
  else if ((97 <=? n) && (n <=? 122))%N then Some (n - 71)%N
  else if ((48 <=? n) && (n <=? 57))%N then Some (n + 4)%N
  else if (n =? 43)%N then Some 62%N
  else if (n =? 47)%N then Some 63%N
  else None.

Fixpoint sextets (s : string) : list N :=
  match s with
  | EmptyString => []
  | String c r =>
      match sextet c with
      | Some v => v :: sextets r
      | None => []
      end
  end.

Definition octet (n : N) : Byte.byte :=
  match Byte.of_N (n mod 256) with
  | Some b => b
  | None => Byte.x00
  end.

(** [acc] holds the [nbits] bits not yet emitted. *)
Fixpoint unpack (acc nbits : N) (l : list N) : list Byte.byte :=
  match l with
  | [] => []
  | v :: r =>
      let acc' := (acc * 64 + v)%N in
      let n' := (nbits + 6)%N in
      if (8 <=? n')%N
      then octet (acc' / 2 ^ (n' - 8)) :: unpack (acc' mod 2 ^ (n' - 8)) (n' - 8) r
      else unpack acc' n' r
  end.

Definition decode (s : string) : JS.bytes := unpack 0 0 (sextets s).

End Base64.

(** ** The remote key-value store

    Hashes, and plain keys that carry an expiry instant (milliseconds). *)

Module Redis.

Record store := {
  hashes : gmap string (gmap string string);
  keys : gmap string (string * Z)
}.

Definition empty : store := {| hashes := ∅; keys := ∅ |}.

Definition hash (h : string) (r : store) : gmap string string :=
  default ∅ (hashes r !! h).

(** HSET h f v *)
Definition hset (h f v : string) (r : store) : store :=
  {| hashes := <[h := <[f := v]> (hash h r)]> (hashes r); keys := keys r |}.

(** HMSET h f1 v1 f2 v2 ... *)
Definition hmset (h : string) (fields : list (string * string)) (r : store) : store :=
  foldl (λ acc fv, hset h fv.1 fv.2 acc) r fields.

(** HDEL h f *)
Definition hdel (h f : string) (r : store) : store :=
  {| hashes := <[h := delete f (hash h r)]> (hashes r); keys := keys r |}.

(** HEXISTS h f: 1 when the field is present, 0 otherwise. *)
Definition hexists (h f : string) (r : store) : Z :=
  if decide (is_Some (hash h r !! f)) then 1%Z else 0%Z.

(** SET k v EX seconds, issued at instant [now]. *)
Definition set_ex (k v : string) (seconds now : Z) (r : store) : store :=
  {| hashes := hashes r; keys := <[k := (v, (now + 1000 * seconds)%Z)]> (keys r) |}.

(** DEL k *)
Definition del (k : string) (r : store) : store :=
  {| hashes := hashes r; keys := delete k (keys r) |}.

(** EXISTS k at instant [now]: an expired key is gone. *)
Definition exists_at (k : string) (now : Z) (r : store) : bool :=
  match keys r !! k with
  | Some (_, expiry) => (now <? expiry)%Z
  | None => false
  end.

End Redis.

(** ** Wire messages *)

Module Wire.

(** Frames received by the coordinator, after [JSON.parse]. *)
Inductive from_agent :=
| register (clientId : string)
| file_metadata (downloadId fileName : string) (fileSize totalChunks : Z)
| file_chunk (downloadId : string) (chunkIndex : nat) (data : string) (isLast : bool)
| error (downloadId message : string)
| unknown (type : string)
| malformed.

(** Frames sent by the coordinator. *)
Inductive from_coordinator :=
| registered (clientId message : string) (secure mutualAuth : bool)
| download_request (downloadId filePath : string)
| error_notice (message : string).

End Wire.

(** ** Process state *)

(** What the runtime provides and the sources only call:
    [Buffer.from(_, 'base64')], [uuidv4()] (the n-th identifier drawn),
    [path.join] and the download directory. *)
Class Platform := {
  base64_decode : string → JS.bytes;
  uuidv4 : nat → string;
  path_join : string → string → string;
  downloadDir : string
}.

Inductive transfer_status := initiated | downloading | completed | failed.

#[global] Instance transfer_status_eq_dec : EqDecision transfer_status.
Proof. solve_decision. Defined.

(** The per-transfer object kept in [DownloadManager.downloads]. A field
    the code has not assigned yet, or has deleted, is [None]. *)
Record download := {
  downloadId : string;
  clientId : string;
  status : transfer_status;
  startTime : Z;
  chunks : option JS.array;
  progress : JS.number;
  fileName : option string;
  fileSize : option Z;
  totalChunks : option Z;
  receivedChunks : option Z;
  endTime : option Z;
  filePath : option string;
  duration : option Z;
  error : option string
}.

(** The groups of field assignments made by the coordinator.

    [initializeDownload]: fileName, fileSize, totalChunks, status,
    receivedChunks. *)
Definition assign_metadata (name : string) (size total : Z) (d : download) : download :=
  {| downloadId := downloadId d; clientId := clientId d;
     status := downloading; startTime := startTime d;
     chunks := chunks d; progress := progress d;
     fileName := Some name; fileSize := Some size;
     totalChunks := Some total; receivedChunks := Some 0%Z;
     endTime := endTime d; filePath := filePath d;
     duration := duration d; error := error d |}.

(** [handleChunk]: chunks (one slot), receivedChunks, progress. *)
Definition assign_chunk (a : JS.array) (received : Z) (percent : JS.number)
    (d : download) : download :=
  {| downloadId := downloadId d; clientId := clientId d;
     status := status d; startTime := startTime d;
     chunks := Some a; progress := percent;
     fileName := fileName d; fileSize := fileSize d;
     totalChunks := totalChunks d; receivedChunks := Some received;
     endTime := endTime d; filePath := filePath d;
     duration := duration d; error := error d |}.

(** [completeDownload]: status, endTime, filePath, duration; chunks is
    deleted. *)
Definition assign_completed (path : string) (now : Z) (d : download) : download :=
  {| downloadId := downloadId d; clientId := clientId d;
     status := completed; startTime := startTime d;
     chunks := None; progress := progress d;
     fileName := fileName d; fileSize := fileSize d;
     totalChunks := totalChunks d; receivedChunks := receivedChunks d;
     endTime := Some now; filePath := Some path;
     duration := Some (now - startTime d)%Z; error := error d |}.

(** [handleError]: status, error, endTime. *)
Definition assign_failed (message : string) (now : Z) (d : download) : download :=
  {| downloadId := downloadId d; clientId := clientId d;
     status := failed; startTime := startTime d;
     chunks := chunks d; progress := progress d;
     fileName := fileName d; fileSize := fileSize d;
     totalChunks := totalChunks d; receivedChunks := receivedChunks d;
     endTime := Some now; filePath := filePath d;
     duration := duration d; error := Some message |}.

Definition handle : Type := nat.

Inductive ready_state := OPEN | CLOSING | CLOSED.

(** One accepted tunnel: the certificate subject seen by the transport
    (mutual authentication only), the handler's [clientId] variable
    ([null] is [None]), and the frames passed to [ws.send]. *)
Record socket := {
  peer_CN : string;
  bound_clientId : option string;
  readyState : ready_state;
  sent : list Wire.from_coordinator
}.

(** The coordinator process and its surroundings: the clock, the remote
    store and whether it is reachable, the file system, whether it accepts
    writes and the calls of [fs.writeFile] so far, the number of
    identifiers drawn, the two in-memory maps and the tunnels. *)
Record state := {
  clock : Z;
  redis_up : bool;
  redis : Redis.store;
  disk_ok : bool;
  disk : gmap string JS.bytes;
  fs_calls : list (string * JS.bytes);
  drawn : nat;
  connections : gmap string handle;
  downloads : gmap string download;
  sockets : gmap handle socket
}.

Definition upd_redis (f : Redis.store → Redis.store) (s : state) : state :=
  {| clock := clock s; redis_up := redis_up s; redis := f (redis s);
     disk_ok := disk_ok s; disk := disk s; fs_calls := fs_calls s;
     drawn := drawn s;
     connections := connections s; downloads := downloads s;
     sockets := sockets s |}.

Definition upd_disk (f : gmap string JS.bytes → gmap string JS.bytes) (s : state) : state :=
  {| clock := clock s; redis_up := redis_up s; redis := redis s;
     disk_ok := disk_ok s; disk := f (disk s); fs_calls := fs_calls s;
     drawn := drawn s;
     connections := connections s; downloads := downloads s;
     sockets := sockets s |}.

Definition upd_fs_calls (f : list (string * JS.bytes) → list (string * JS.bytes))
    (s : state) : state :=
  {| clock := clock s; redis_up := redis_up s; redis := redis s;
     disk_ok := disk_ok s; disk := disk s; fs_calls := f (fs_calls s);
     drawn := drawn s;
     connections := connections s; downloads := downloads s;
     sockets := sockets s |}.

Definition upd_drawn (f : nat → nat) (s : state) : state :=
  {| clock := clock s; redis_up := redis_up s; redis := redis s;
     disk_ok := disk_ok s; disk := disk s; fs_calls := fs_calls s;
     drawn := f (drawn s);
     connections := connections s; downloads := downloads s;
     sockets := sockets s |}.

Definition upd_connections (f : gmap string handle → gmap string handle) (s : state) : state :=
  {| clock := clock s; redis_up := redis_up s; redis := redis s;
     disk_ok := disk_ok s; disk := disk s; fs_calls := fs_calls s;
     drawn := drawn s;
     connections := f (connections s); downloads := downloads s;
     sockets := sockets s |}.

Definition upd_downloads (f : gmap string download → gmap string download) (s : state) : state :=
  {| clock := clock s; redis_up := redis_up s; redis := redis s;
     disk_ok := disk_ok s; disk := disk s; fs_calls := fs_calls s;
     drawn := drawn s;
     connections := connections s; downloads := f (downloads s);
     sockets := sockets s |}.

Definition upd_sockets (f : gmap handle socket → gmap handle socket) (s : state) : state :=
  {| clock := clock s; redis_up := redis_up s; redis := redis s;
     disk_ok := disk_ok s; disk := disk s; fs_calls := fs_calls s;
     drawn := drawn s;
     connections := connections s; downloads := downloads s;
     sockets := f (sockets s) |}.

(** The environment moves on its own: time passes. *)
Definition advance (ms : Z) (s : state) : state :=
  {| clock := (clock s + ms)%Z; redis_up := redis_up s; redis := redis s;
     disk_ok := disk_ok s; disk := disk s; fs_calls := fs_calls s;
     drawn := drawn s;
     connections := connections s; downloads := downloads s;
     sockets := sockets s |}.

(** A freshly started coordinator at instant [t]. *)
Definition boot (t : Z) : state :=
  {| clock := t; redis_up := true; redis := Redis.empty;
     disk_ok := true; disk := ∅; fs_calls := []; drawn := 0;
     connections := ∅; downloads := ∅; sockets := ∅ |}.

(** ** The handler monad *)

Inductive outcome (A : Type) :=
| Return (a : A)
| Throw (e : string).
Arguments Return {A} a.
Arguments Throw {A} e.

Definition M (A : Type) : Type := state → outcome A * state.

#[global] Instance M_ret : MRet M := λ A a s, (Return a, s).

#[global] Instance M_bind : MBind M := λ A B f m s,
  match m s with
  | (Return a, s') => f a s'
  | (Throw e, s') => (Throw e, s')
  end.

Definition throw {A : Type} (e : string) : M A := λ s, (Throw e, s).

(** [try { m } catch (error) { h error.message }] *)
Definition try_catch {A : Type} (m : M A) (h : string → M A) : M A := λ s,
  match m s with
  | (Return a, s') => (Return a, s')
  | (Throw e, s') => h e s'
  end.

Definition gets {A : Type} (f : state → A) : M A := λ s, (Return (f s), s).
Definition modify (f : state → state) : M unit := λ s, (Return tt, f s).

Definition run {A : Type} (m : M A) (s : state) : state := (m s).2.
Definition result {A : Type} (m : M A) (s : state) : outcome A := (m s).1.

(** [Date.now()] *)
Definition Date_now : M Z := gets clock.

(** A command sent to the remote store: the promise rejects while the
    store is unreachable. *)
Definition redis_command {A : Type} (f : Redis.store → A * Redis.store) : M A := λ s,
  if redis_up s
  then let '(a, r) := f (redis s) in (Return a, upd_redis (λ _, r) s)
  else (Throw "Redis connection lost", s).

(** [fs.writeFile(path, data)]: the call is recorded, whether or not the
    write succeeds. *)
Definition fs_writeFile (path : string) (data : JS.bytes) : M unit := λ s,
  let s := upd_fs_calls (λ calls, calls ++ [(path, data)]) s in
  if disk_ok s
  then (Return tt, upd_disk (<[path := data]>) s)
  else (Throw "EIO: write failed", s).

(** [ws.send(JSON.stringify(frame))]: recorded on the tunnel. *)
Definition record_sent (frame : Wire.from_coordinator) (k : socket) : socket :=
  {| peer_CN := peer_CN k; bound_clientId := bound_clientId k;
     readyState := readyState k; sent := sent k ++ [frame] |}.

Definition ws_send (ws : handle) (frame : Wire.from_coordinator) : M unit :=
  modify (upd_sockets (alter (record_sent frame) ws)).

(** [ws.close()]: starts the closing handshake; the [close] event is
    delivered later. *)
Definition start_closing (k : socket) : socket :=
  {| peer_CN := peer_CN k; bound_clientId := bound_clientId k;
     readyState := match readyState k with OPEN => CLOSING | r => r end;
     sent := sent k |}.

Definition ws_close (ws : handle) : M unit :=
  modify (upd_sockets (alter start_closing ws)).

(** Assignment to the handler's [clientId] variable. *)
Definition assign_bound (c : string) (k : socket) : socket :=
  {| peer_CN := peer_CN k; bound_clientId := Some c;
     readyState := readyState k; sent := sent k |}.

Definition bind_clientId (ws : handle) (c : string) : M unit :=
  modify (upd_sockets (alter (assign_bound c) ws)).

(** The tunnel is gone: the [close] event is being delivered. *)
Definition closed (k : socket) : socket :=
  {| peer_CN := peer_CN k; bound_clientId := bound_clientId k;
     readyState := CLOSED; sent := sent k |}.

Definition ws_closed (ws : handle) : M unit :=
  modify (upd_sockets (alter closed ws)).

(** The transport accepts a tunnel ([wss.on('connection')]). *)
Definition accept (ws : handle) (cn : string) (s : state) : state :=
  upd_sockets (<[ws := {| peer_CN := cn; bound_clientId := None;
                          readyState := OPEN; sent := [] |}]>) s.

(** ** server/connectionManager.js *)

Module ConnectionManager.

Definition liveness_key (clientId : string) : string :=
  "client:" +:+ clientId +:+ ":status".

Definition registerClient (clientId : string) (ws : handle) : M unit :=
  modify (upd_connections (<[clientId := ws]>)) ;;
  now ← Date_now;
  redis_command (λ r, (tt, Redis.hset "connected_clients" clientId (pretty now) r)) ;;
  now' ← Date_now;
  redis_command (λ r, (tt, Redis.set_ex (liveness_key clientId) "connected" 300 now' r)).

Definition unregisterClient (clientId : string) : M unit :=
  modify (upd_connections (delete clientId)) ;;
  redis_command (λ r, (tt, Redis.hdel "connected_clients" clientId r)) ;;
  redis_command (λ r, (tt, Redis.del (liveness_key clientId) r)).

Definition isClientConnected (clientId : string) : M bool :=
  exists_ ← redis_command (λ r, (Redis.hexists "connected_clients" clientId r, r));
  has ← gets (λ s, bool_decide (is_Some (connections s !! clientId)));
  mret (has && (exists_ =? 1)%Z).

Definition getClientConnection (clientId : string) : M (option handle) :=
  gets (λ s, connections s !! clientId).

End ConnectionManager.

(** ** The download manager *)

Module DownloadManager.
Section WithPlatform.
Context `{Platform}.

Definition key (id : string) : string := "download:" +:+ id.

Definition initiateDownload (client : string) : M string :=
  n ← gets drawn;
  modify (upd_drawn S) ;;
  let id := uuidv4 n in
  now ← Date_now;
  let download :=
    {| downloadId := id; clientId := client; status := initiated;
       startTime := now; chunks := Some []; progress := JS.of_Z 0;
       fileName := None; fileSize := None; totalChunks := None;
       receivedChunks := None; endTime := None; filePath := None;
       duration := None; error := None |} in
  modify (upd_downloads (<[id := download]>)) ;;
  now' ← Date_now;
  redis_command (λ r, (tt, Redis.hmset (key id)
    [("clientId", client); ("status", "initiated"); ("startTime", pretty now')] r)) ;;
  mret id.

Definition initializeDownload (id name : string) (size total : Z) : M unit :=
  found ← gets (λ s, downloads s !! id);
  match found with
  | None => mret tt
  | Some d =>
      modify (upd_downloads (<[id := assign_metadata name size total d]>)) ;;
      redis_command (λ r, (tt, Redis.hmset (key id)
        [("fileName", name); ("fileSize", pretty size);
         ("totalChunks", pretty total); ("status", "downloading")] r))
  end.

Definition handleError (id errorMessage : string) : M unit :=
  found ← gets (λ s, downloads s !! id);
  match found with
  | None => mret tt
  | Some d =>
      now ← Date_now;
      modify (upd_downloads (<[id := assign_failed errorMessage now d]>)) ;;
      now' ← Date_now;
      redis_command (λ r, (tt, Redis.hmset (key id)
        [("status", "failed"); ("error", errorMessage); ("endTime", pretty now')] r))
  end.

(** [Buffer.concat(download.chunks)]: a [TypeError] when the array has
    been deleted or has a hole. *)
Definition concat_chunks (c : option JS.array) : M JS.bytes :=
  match c with
  | None => throw "The list argument must be an instance of Array"
  | Some a =>
      match JS.Buffer_concat a with
      | None => throw "Cannot read properties of undefined (reading length)"
      | Some b => mret b
      end
  end.

(** The destination [path.join(downloadDir, clientId_fileName)]. *)
Definition destination (d : download) : string :=
  path_join downloadDir (clientId d +:+ "_" +:+ JS.interpolate (fileName d)).

Definition completeDownload (id : string) : M unit :=
  found ← gets (λ s, downloads s !! id);
  match found with
  | None => mret tt
  | Some d =>
      try_catch
        (let path := destination d in
         fileData ← concat_chunks (chunks d);
         fs_writeFile path fileData ;;
         now ← Date_now;
         modify (upd_downloads (<[id := assign_completed path now d]>)) ;;
         now' ← Date_now;
         redis_command (λ r, (tt, Redis.hmset (key id)
           [("status", "completed"); ("endTime", pretty now');
            ("filePath", path); ("duration", pretty (now - startTime d)%Z)] r)))
        (λ message, handleError id message)
  end.

(** [Math.round((download.receivedChunks / download.totalChunks) * 100)] *)
Definition percentage (received : Z) (total : option Z) : JS.number :=
  JS.Math_round (JS.mul (JS.div (JS.of_Z received) (JS.to_number total)) (JS.of_Z 100)).

Definition handleChunk (id : string) (chunkIndex : nat) (data : string)
    (isLast : bool) : M unit :=
  found ← gets (λ s, downloads s !! id);
  match found with
  | None => mret tt
  | Some d =>
      match chunks d with
      | None => throw "Cannot set properties of undefined"
      | Some a =>
          let a' := JS.array_set a chunkIndex (base64_decode data) in
          let received := JS.incr (default 0%Z (receivedChunks d)) in
          let percent := percentage received (totalChunks d) in
          modify (upd_downloads (<[id := assign_chunk a' received percent d]>)) ;;
          if isLast then completeDownload id else mret tt
      end
  end.

Definition getDownloadStatus (id : string) : M (option download) :=
  gets (λ s, downloads s !! id).

End WithPlatform.
End DownloadManager.

(** ** HTTP responses of the trigger route *)

Record response := {
  code : nat;
  success : bool;
  body_downloadId : option string;
  body_error : option string;
  body_message : option string
}.

Definition failure (c : nat) (message : string) : response :=
  {| code := c; success := false; body_downloadId := None;
     body_error := Some message; body_message := None |}.

Definition initiated_response (id message : string) : response :=
  {| code := 200; success := true; body_downloadId := Some id;
     body_error := None; body_message := Some message |}.

(** The handler's [clientId] variable of tunnel [ws]. *)
Definition bound (ws : handle) : M (option string) :=
  gets (λ s, sockets s !! ws ≫= bound_clientId).

(** ** server/server.js *)

Module Server.
Section WithPlatform.
Context `{Platform}.

(** [ws.on('message')]; the whole body sits in a [try] whose [catch]
    only logs. *)
Definition on_message (ws : handle) (message : Wire.from_agent) : M unit :=
  try_catch
    (match message with
     | Wire.malformed => throw "Unexpected token in JSON"
     | Wire.register c =>
         bind_clientId ws c ;;
         ConnectionManager.registerClient c ws ;;
         ws_send ws (Wire.registered c "Successfully registered" false false)
     | Wire.file_chunk id chunkIndex data isLast =>
         DownloadManager.handleChunk id chunkIndex data isLast
     | Wire.file_metadata id name size total =>
         DownloadManager.initializeDownload id name size total
     | Wire.error id err =>
         DownloadManager.handleError id err
     | Wire.unknown _ => mret tt
     end)
    (λ _, mret tt).

(** [ws.on('close')] *)
Definition on_close (ws : handle) : M unit :=
  ws_closed ws ;;
  c ← bound ws;
  if JS.truthy c
  then ConnectionManager.unregisterClient (default "" c)
  else mret tt.

(** [app.post('/api/download')]; [body] is [req.body.clientId]. *)
Definition post_download (body : option string) : M response :=
  try_catch
    (if negb (JS.truthy body)
     then mret (failure 400 "clientId is required")
     else
       let c := default "" body in
       isConnected ← ConnectionManager.isClientConnected c;
       if negb isConnected
       then mret (failure 404 ("Client " +:+ c +:+ " is not connected"))
       else
         id ← DownloadManager.initiateDownload c;
         ws ← ConnectionManager.getClientConnection c;
         match ws with
         | Some w => ws_send w (Wire.download_request id "/data/sample-file.txt")
         | None => throw "Cannot read properties of undefined (reading send)"
         end ;;
         mret (initiated_response id "Download initiated"))
    (λ message, mret (failure 500 message)).

End WithPlatform.
End Server.

(** ** server/server-mtls.js *)

Module ServerMtls.
Section WithPlatform.
Context `{Platform}.

(** [clientIdFromCert], fixed when the tunnel is accepted. *)
Definition clientIdFromCert (ws : handle) : M (option string) :=
  gets (λ s, peer_CN <$> sockets s !! ws).

Definition on_message (ws : handle) (message : Wire.from_agent) : M unit :=
  try_catch
    (match message with
     | Wire.malformed => throw "Unexpected token in JSON"
     | Wire.register c =>
         bind_clientId ws c ;;
         cn ← clientIdFromCert ws;
         if bool_decide (Some c ≠ cn)
         then
           ws_send ws (Wire.error_notice "ClientId does not match certificate CN") ;;
           ws_close ws
         else
           ConnectionManager.registerClient c ws ;;
           ws_send ws (Wire.registered c "Successfully registered with mTLS" true true)
     | Wire.file_chunk id chunkIndex data isLast =>
         DownloadManager.handleChunk id chunkIndex data isLast
     | Wire.file_metadata id name size total =>
         DownloadManager.initializeDownload id name size total
     | Wire.error id err =>
         DownloadManager.handleError id err
     | Wire.unknown _ => mret tt
     end)
    (λ _, mret tt).

Definition on_close (ws : handle) : M unit :=
  ws_closed ws ;;
  c ← bound ws;
  if JS.truthy c
  then ConnectionManager.unregisterClient (default "" c)
  else mret tt.

End WithPlatform.
End ServerMtls.

(** ** The agent script: the reconnect policy *)

Module Agent.

Definition MAX_RECONNECT_ATTEMPTS : Z := 5.

(** What a call of [attemptReconnect] asks of the runtime. *)
Inductive effect :=
| setTimeout_connect (delay : Z)
| process_exit (code : Z).

(** [reconnectAttempts] is the only state of the policy. The delay
    [Math.min(1000 * Math.pow(2, reconnectAttempts), 30000)] is computed
    on integers far below [2^53], where [Number] arithmetic is exact. *)
Definition attemptReconnect (reconnectAttempts : Z) : Z * effect :=
  if (reconnectAttempts <? MAX_RECONNECT_ATTEMPTS)%Z
  then
    let reconnectAttempts := (reconnectAttempts + 1)%Z in
    let delay := Z.min (1000 * 2 ^ reconnectAttempts) 30000 in
    (reconnectAttempts, setTimeout_connect delay)
  else (reconnectAttempts, process_exit 1).

(** [ws.on('open')] resets the counter. *)
Definition on_open (reconnectAttempts : Z) : Z := 0%Z.

(** [ws.on('close')] *)
Definition on_close (reconnectAttempts : Z) : Z * effect :=
  attemptReconnect reconnectAttempts.

(** [n] tunnel losses in a row, no attempt in between reaching [open]:
    the effects requested, in order. After [process_exit] nothing runs. *)
Fixpoint losses (n : nat) (reconnectAttempts : Z) : list effect :=
  match n with
  | 0 => []
  | S n' =>
      match on_close reconnectAttempts with
      | (r, setTimeout_connect d) => setTimeout_connect d :: losses n' r
      | (_, process_exit c) => [process_exit c]
      end
  end.

End Agent.

(** ** Traffic and operations, as the properties name them *)

(** Frames handled one after the other on tunnel [ws]. *)
Definition deliver `{Platform} (ws : handle) (frames : list Wire.from_agent)
    (s : state) : state :=
  foldl (λ s frame, run (Server.on_message ws frame) s) s frames.

(** A chunk message [(chunkIndex, data, isLast)] of transfer [id]. *)
Definition chunk_frame (id : string) (c : nat * string * bool) : Wire.from_agent :=
  Wire.file_chunk id c.1.1 c.1.2 c.2.

(** The four operations that touch the status of a transfer record. *)
Inductive operation :=
| onMetadata (name : string) (size total : Z)
| onChunk (index : nat) (payload : string) (isLast : bool)
| complete
| fail (reason : string).

Definition perform `{Platform} (op : operation) (id : string) : M unit :=
  match op with
  | onMetadata name size total => DownloadManager.initializeDownload id name size total
  | onChunk index payload isLast => DownloadManager.handleChunk id index payload isLast
  | complete => DownloadManager.completeDownload id
  | fail reason => DownloadManager.handleError id reason
  end.

Definition terminal (st : transfer_status) : bool :=
  match st with
  | completed | failed => true
  | initiated | downloading => false
  end.

(** The integer nearest to [100 * received / total], a tie going up, in
    exact arithmetic. *)
Definition nearest_percent (received total : Z) : Z :=
  ((200 * received + total) / (2 * total))%Z.

#[global] Instance number_eq_dec : EqDecision spec_float.
Proof. solve_decision. Defined.

(** Whether [Math.round(received / total * 100)] is the nearest integer
    or [100 * received / total] is an exact tie. *)
Definition nearest_or_tie (received total : nat) : bool :=
  let r := Z.of_nat received in
  let t := Z.of_nat total in
  ((200 * r + t) mod (2 * t) =? 0)%Z
  || bool_decide (DownloadManager.percentage r (Some t) = JS.of_Z (nearest_percent r t)).

(** Position of a status on the path
    initiated, downloading, completed or failed. *)
Definition rank (st : transfer_status) : nat :=
  match st with
  | initiated => 0
  | downloading => 1
  | completed | failed => 2
  end.

(** The progress formula as the specification words it:
    [floor (received / total * 100)]. *)
Definition floor_percentage (received : Z) (total : option Z) : JS.number :=
  JS.Math_floor (JS.mul (JS.div (JS.of_Z received) (JS.to_number total)) (JS.of_Z 100)).

(** ** A concrete platform for the examples

    Identifiers are numbered, segments are joined with a slash (what
    [path.join] does on segments that need no normalisation). *)

#[local] Instance demo : Platform := {|
  base64_decode := Base64.decode;
  uuidv4 := λ n, "transfer-" +:+ pretty n;
  path_join := λ dir name, dir +:+ "/" +:+ name;
  downloadDir := "/srv/downloads"
|}.

(** ** Read-only snapshots of the two managers *)

Module Snapshot.
Section WithDates.

(** [new Date(parseInt(timestamp)).toISOString()] on a stored timestamp;
    [None] when the date is invalid and [toISOString] throws a
    [RangeError]. *)
Variable toISOString : string → option string.

(** HGETALL h: [null] for a hash without fields. *)
Definition hgetall (h : string) (r : Redis.store) : option (gmap string string) :=
  if decide (Redis.hash h r = ∅) then None else Some (Redis.hash h r).

Record client_entry := {
  entry_clientId : string;
  connectedAt : string
}.

(** [ConnectionManager.getConnectedClients]. The entries come in the order
    of [map_to_list]; the order of the reply of the store is not modelled. *)
Definition getConnectedClients : M (list client_entry) :=
  clients ← redis_command (λ r, (hgetall "connected_clients" r, r));
  match clients with
  | None => mret []
  | Some fields =>
      match mapM (λ kv, (λ iso, {| entry_clientId := kv.1; connectedAt := iso |})
                          <$> toISOString kv.2)
                 (map_to_list fields) with
      | Some entries => mret entries
      | None => throw "Invalid time value"
      end
  end.

(** [x || 0] on a number: zero, minus zero and [NaN] are falsy. *)
Definition or_zero (x : JS.number) : JS.number :=
  match x with
  | S754_zero _ | S754_nan => JS.of_Z 0
  | _ => x
  end.

Record summary := {
  sum_downloadId : string;
  sum_clientId : string;
  sum_status : transfer_status;
  sum_progress : JS.number;
  sum_fileName : option string;
  sum_fileSize : option Z;
  sum_duration : option Z;
  sum_filePath : option string
}.

Definition summarize (d : download) : summary :=
  {| sum_downloadId := downloadId d; sum_clientId := clientId d;
     sum_status := status d; sum_progress := or_zero (progress d);
     sum_fileName := fileName d; sum_fileSize := fileSize d;
     sum_duration := duration d; sum_filePath := filePath d |}.

(** [DownloadManager.getAllDownloads], in the order of [map_to_list]. *)
Definition getAllDownloads : M (list summary) :=
  gets (λ s, map (λ kv, summarize kv.2) (map_to_list (downloads s))).

End WithDates.
End Snapshot.

(** ** The agent script: streaming a file *)

Module Emitter.
Section WithRuntime.

(** [chunk.toString('base64')] and the absolute path [FILE_PATH]. *)
Variable toString_base64 : JS.bytes → string.
Variable FILE_PATH : string.

Definition CHUNK_SIZE : nat := 1024 * 1024.

(** What [fs.createReadStream(path, { highWaterMark: n })] yields for a
    file with content [l]: buffers of [n] bytes, the last one shorter when
    the length is not a multiple of [n]. [fuel] bounds the number of
    buffers; the length of the file is enough. *)
Fixpoint chunked (fuel n : nat) (l : JS.bytes) : list JS.bytes :=
  match fuel with
  | 0 => []
  | S fuel' =>
      match l with
      | [] => []
      | _ :: _ => take n l :: chunked fuel' n (drop n l)
      end
  end.

Definition read_stream (l : JS.bytes) : list JS.bytes :=
  chunked (length l) CHUNK_SIZE l.

(** [Math.ceil(fileSize / CHUNK_SIZE)]; the quotient by a power of two is
    exact on a [Number]. *)
Definition chunk_count (fileSize : nat) : Z :=
  ((Z.of_nat fileSize + Z.of_nat CHUNK_SIZE - 1) / Z.of_nat CHUNK_SIZE)%Z.

(** The frames sent by [handleDownloadRequest(downloadId, filePath)], in
    order. [file] is the content of [FILE_PATH], [None] when it does not
    exist. The requested [filePath] is not used. *)
Definition handleDownloadRequest (file : option JS.bytes) (id filePath : string)
    : list Wire.from_agent :=
  match file with
  | None => [Wire.error id ("File not found: " +:+ FILE_PATH)]
  | Some content =>
      let totalChunks := chunk_count (length content) in
      Wire.file_metadata id "sample-file.txt" (Z.of_nat (length content)) totalChunks
      :: imap (λ chunkIndex chunk,
                 Wire.file_chunk id chunkIndex (toString_base64 chunk)
                   (bool_decide (Z.of_nat chunkIndex = totalChunks - 1)%Z))
              (read_stream content)
  end.

(** [ws.on('message')] of the agent: only a work request is answered. *)
Definition on_message (file : option JS.bytes) (frame : Wire.from_coordinator)
    : list Wire.from_agent :=
  match frame with
  | Wire.download_request id filePath => handleDownloadRequest file id filePath
  | Wire.registered _ _ _ _ => []
  | Wire.error_notice _ => []
  end.

End WithRuntime.
End Emitter.

(** Standard base64 text of a buffer, the inverse of [Base64.decode]; used
    in the examples. *)
Module Base64Text.

Definition letter (v : N) : Ascii.ascii :=
  Ascii.ascii_of_N
    (if (v <? 26)%N then v + 65
     else if (v <? 52)%N then v + 71
     else if (v <? 62)%N then v - 4
     else if (v =? 62)%N then 43 else 47)%N.

Fixpoint encode (l : JS.bytes) : string :=
  match l with
  | [] => ""
  | [a] =>
      let x := Byte.to_N a in
      String (letter (x / 4)) (String (letter (x mod 4 * 16)) "==")
  | [a; b] =>
      let x := Byte.to_N a in
      let y := Byte.to_N b in
      String (letter (x / 4)) (String (letter (x mod 4 * 16 + y / 16))
        (String (letter (y mod 16 * 4)) "="))
  | a :: b :: c :: r =>
      let x := Byte.to_N a in
      let y := Byte.to_N b in
      let z := Byte.to_N c in
      String (letter (x / 4)) (String (letter (x mod 4 * 16 + y / 16))
        (String (letter (y mod 16 * 4 + z / 64)) (String (letter (z mod 64))
          (encode r))))
  end.

End Base64Text.

(** ** The coordinator as a reactive system *)

(** What can happen to the coordinator process: a tunnel is accepted, a
    frame arrives on a tunnel, a tunnel closes, the trigger route is
    called, time passes, the remote store or the disk comes and goes. *)
Inductive event :=
| accepted (ws : handle) (cn : string)
| received (ws : handle) (frame : Wire.from_agent)
| hung_up (ws : handle)
| triggered (body : option string)
| elapsed (ms : Z)
| store_reachable (up : bool)
| disk_writable (ok : bool).

Definition set_redis_up (up : bool) (s : state) : state :=
  {| clock := clock s; redis_up := up; redis := redis s;
     disk_ok := disk_ok s; disk := disk s; fs_calls := fs_calls s;
     drawn := drawn s;
     connections := connections s; downloads := downloads s;
     sockets := sockets s |}.

Definition set_disk_ok (ok : bool) (s : state) : state :=
  {| clock := clock s; redis_up := redis_up s; redis := redis s;
     disk_ok := ok; disk := disk s; fs_calls := fs_calls s;
     drawn := drawn s;
     connections := connections s; downloads := downloads s;
     sockets := sockets s |}.

Definition react `{Platform} (e : event) (s : state) : state :=
  match e with
  | accepted ws cn => accept ws cn s
  | received ws frame => run (Server.on_message ws frame) s
  | hung_up ws => run (Server.on_close ws) s
  | triggered body => run (Server.post_download body) s
  | elapsed ms => advance ms s
  | store_reachable up => set_redis_up up s
  | disk_writable ok => set_disk_ok ok s
  end.

Definition history `{Platform} (es : list event) (s : state) : state :=
  foldl (λ s e, react e s) s es.

(** A record whose status is [completed] has no chunk buffers left and
    names a file that is on the disk. *)
Definition settled (s : state) (d : download) : Prop :=
  status d = completed →
  chunks d = None ∧ ∃ path, filePath d = Some path ∧ is_Some (disk s !! path).

(** A record is stored under its own identifier, which is one of the
    identifiers drawn so far. *)
Definition filed `{Platform} (s : state) (id : string) (d : download) : Prop :=
  downloadId d = id ∧ ∃ n, n < drawn s ∧ id = uuidv4 n.

(** The invariant kept by every history: each record is filed under its
    own identifier and, if completed, settled. *)
Definition sound `{Platform} (s : state) : Prop :=
  ∀ id d, downloads s !! id = Some d → settled s d ∧ filed s id d.

(** * Properties *)

(** ** Runtime values *)

Example round_two_thirds :
  JS.Math_round (JS.mul (JS.div (JS.of_Z 2) (JS.of_Z 3)) (JS.of_Z 100)) = JS.of_Z 67.
Proof. vm_compute. reflexivity. Qed.

Example floor_two_thirds :
  JS.Math_floor (JS.mul (JS.div (JS.of_Z 2) (JS.of_Z 3)) (JS.of_Z 100)) = JS.of_Z 66.
Proof. vm_compute. reflexivity. Qed.

Example round_half : JS.Math_round (JS.div (JS.of_Z 1) (JS.of_Z 2)) = JS.of_Z 1.
Proof. vm_compute. reflexivity. Qed.

Example round_minus_half :
  JS.Math_round (JS.div (JS.of_Z (-1)) (JS.of_Z 2)) = S754_zero true.
Proof. vm_compute. reflexivity. Qed.

Example round_minus_three_halves :
  JS.Math_round (JS.div (JS.of_Z (-3)) (JS.of_Z 2)) = JS.of_Z (-1).
Proof. vm_compute. reflexivity. Qed.

Example floor_minus_half :
  JS.Math_floor (JS.div (JS.of_Z (-1)) (JS.of_Z 2)) = JS.of_Z (-1).
Proof. vm_compute. reflexivity. Qed.

Example incr_saturates :
  JS.add (JS.of_Z (2 ^ 53)) (JS.of_Z 1) = JS.of_Z (JS.incr (2 ^ 53))
  ∧ JS.add (JS.of_Z (2 ^ 53 - 1)) (JS.of_Z 1) = JS.of_Z (JS.incr (2 ^ 53 - 1)).
Proof. vm_compute. split; reflexivity. Qed.

Example decode_hi : Base64.decode "aGk=" = [Byte.x68; Byte.x69].
Proof. vm_compute. reflexivity. Qed.

Example array_set_extends :
  JS.array_set [] 2 [Byte.x61] = [None; None; Some [Byte.x61]].
Proof. reflexivity. Qed.

(** ** Unfolding the monad *)

Ltac monad_unfold :=
  unfold run, result, mbind, M_bind, mret, M_ret, gets, modify, Date_now,
    redis_command, fs_writeFile, throw, try_catch, bound,
    ws_send, ws_close, ws_closed, bind_clientId in *.

Ltac monad_simpl := monad_unfold; simpl in *.

Lemma upd_redis_id (s : state) : upd_redis (λ _, redis s) s = s.
Proof. by destruct s. Qed.

Lemma run_eq {A B : Type} (m : M A) (m' : M B) (s s' : state) :
  (m s).2 = (m' s').2 → run m s = run m' s'.
Proof. done. Qed.

Lemma run_is {A : Type} (m : M A) (s s' : state) (o : outcome A) :
  m s = (o, s') → run m s = s'.
Proof. unfold run. by intros ->. Qed.

Lemma upd_sockets_compose (f g : gmap handle socket → gmap handle socket) (s : state) :
  upd_sockets f (upd_sockets g s) = upd_sockets (λ m, f (g m)) s.
Proof. done. Qed.

Lemma upd_sockets_ext (f g : gmap handle socket → gmap handle socket) (s : state) :
  f (sockets s) = g (sockets s) → upd_sockets f s = upd_sockets g s.
Proof. intros E. unfold upd_sockets. by rewrite E. Qed.

(** Case analysis on whether the remote store of [s] is reachable. *)
Ltac case_store s :=
  let Hup := fresh "Hup" in
  destruct (redis_up s) eqn:Hup; simpl in *;
  repeat (rewrite ?Hup; simpl).

(** ** The remote store *)

Section Store.
Import Redis.

Lemma hash_hset (h f v : string) (r : store) :
  hash h (hset h f v r) = <[f := v]> (hash h r).
Proof.
  unfold hash at 1. unfold hset. cbn [hashes]. by rewrite lookup_insert_eq.
Qed.

Lemma hash_hdel (h f : string) (r : store) :
  hash h (hdel h f r) = delete f (hash h r).
Proof.
  unfold hash at 1. unfold hdel. cbn [hashes]. by rewrite lookup_insert_eq.
Qed.

Lemma hash_hset_ne (h h' f v : string) (r : store) :
  h ≠ h' → hash h' (hset h f v r) = hash h' r.
Proof.
  intros Hne. unfold hash, hset. cbn [hashes]. by rewrite lookup_insert_ne.
Qed.

Lemma hash_set_ex (h k v : string) (ttl now : Z) (r : store) :
  hash h (set_ex k v ttl now r) = hash h r.
Proof. done. Qed.

Lemma hash_del (h k : string) (r : store) : hash h (del k r) = hash h r.
Proof. done. Qed.

Lemma keys_hset (h f v : string) (r : store) : keys (hset h f v r) = keys r.
Proof. done. Qed.

Lemma keys_hdel (h f : string) (r : store) : keys (hdel h f r) = keys r.
Proof. done. Qed.

Lemma keys_set_ex (k v : string) (ttl now : Z) (r : store) :
  keys (set_ex k v ttl now r) = <[k := (v, (now + 1000 * ttl)%Z)]> (keys r).
Proof. done. Qed.

Lemma keys_del (k : string) (r : store) : keys (del k r) = delete k (keys r).
Proof. done. Qed.

End Store.

#[local] Arguments Redis.hset : simpl never.
#[local] Arguments Redis.hdel : simpl never.
#[local] Arguments Redis.hmset : simpl never.
#[local] Arguments Redis.set_ex : simpl never.
#[local] Arguments Redis.del : simpl never.
#[local] Arguments Redis.hash : simpl never.
#[local] Arguments Redis.hexists : simpl never.
#[local] Arguments ConnectionManager.liveness_key : simpl never.

(** ** The reconnect policy of the agent *)

Section Reconnect.
Import Agent.

(** C5, as the code has it. After a tunnel that had reached [open] is
    lost, the delays requested before the five attempts are 2 s, 4 s, 8 s,
    16 s and 30 s, the [k]-th being [min (1000 * 2^k) 30000] ms (the
    counter is incremented before the delay is computed, so the cap
    applies to the fifth); the loss that follows the fifth failed attempt
    requests [process.exit(1)], and nothing is requested after it. *)
Theorem reconnect_schedule (n : nat) (r : Z) :
  losses (6 + n) (on_open r) =
    map (λ k : nat, setTimeout_connect (Z.min (1000 * 2 ^ Z.of_nat k) 30000)) (seq 1 5)
    ++ [process_exit 1]
  ∧ losses 5 (on_open r) =
      map setTimeout_connect [2000; 4000; 8000; 16000; 30000]%Z.
Proof. split; reflexivity. Qed.

(** C5 as stated fails: the first five delays are not
    1 s, 2 s, 4 s, 8 s, 16 s; the first one is already 2 s. *)
Lemma reconnect_first_delay_is_two_seconds :
  losses 5 0 ≠ map setTimeout_connect [1000; 2000; 4000; 8000; 16000]%Z
  ∧ head (losses 5 0) = Some (setTimeout_connect 2000).
Proof. split; [discriminate | reflexivity]. Qed.

End Reconnect.

(** ** The session registry (connectionManager.js) *)

Section Registry.
Import ConnectionManager.

Lemma isClientConnected_run (s : state) (c : string) :
  isClientConnected c s =
    if redis_up s
    then (Return (bool_decide (is_Some (connections s !! c))
                  && (Redis.hexists "connected_clients" c (redis s) =? 1)%Z), s)
    else (Throw "Redis connection lost", s).
Proof.
  unfold isClientConnected. monad_simpl.
  destruct (redis_up s); [|done]. by rewrite upd_redis_id.
Qed.

Lemma isClientConnected_state (s : state) (c : string) :
  run (isClientConnected c) s = s.
Proof. unfold run. rewrite isClientConnected_run. by destruct (redis_up s). Qed.

Lemma hexists_one (r : Redis.store) (c : string) :
  (Redis.hexists "connected_clients" c r =? 1)%Z = true
  ↔ is_Some (Redis.hash "connected_clients" r !! c).
Proof. unfold Redis.hexists. case_decide; simpl; split; intros; done. Qed.

(** C3, as the code has it. [isClientConnected] answers [true] exactly
    when the store is reachable, the local map holds a handle for the
    identity and the registry hash [connected_clients] of the remote store
    has a field for it; it changes nothing. The expiring key
    [client:<id>:status] does not occur in the condition. *)
Theorem isClientConnected_true_iff (s : state) (c : string) :
  (result (isClientConnected c) s = Return true
   ↔ redis_up s = true
     ∧ is_Some (connections s !! c)
     ∧ is_Some (Redis.hash "connected_clients" (redis s) !! c))
  ∧ run (isClientConnected c) s = s.
Proof.
  unfold result, run. rewrite isClientConnected_run.
  destruct (redis_up s); simpl; [|split; [split|]; [done| intros [? _]; done | done]].
  split; [|done]. rewrite <- hexists_one.
  case_bool_decide; simpl.
  - destruct (Redis.hexists _ _ _ =? 1)%Z; split.
    + done.
    + done.
    + done.
    + intros (_ & _ & ?). done.
  - split; [done|]. intros (_ & ? & _). done.
Qed.

(** C3 as stated fails: 300 s after a registration the expiring marker
    is gone, the handle and the hash field are still there, and
    [isClientConnected] answers [true]. *)
Lemma connected_after_marker_expired :
  let s := advance 300000 (run (registerClient "site-1" 7) (boot 0)) in
  result (isClientConnected "site-1") s = Return true
  ∧ Redis.exists_at (liveness_key "site-1") (clock s) (redis s) = false.
Proof. vm_compute. done. Qed.

Lemma registerClient_connections (s : state) (c : string) (ws : handle) :
  connections (run (registerClient c ws) s) = <[c := ws]> (connections s).
Proof. unfold registerClient. monad_simpl. by case_store s. Qed.

Lemma registerClient_redis (s : state) (c : string) (ws : handle) :
  redis_up s = true →
  redis (run (registerClient c ws) s) =
    Redis.set_ex (liveness_key c) "connected" 300 (clock s)
      (Redis.hset "connected_clients" c (pretty (clock s)) (redis s)).
Proof. intros Hup. unfold registerClient. monad_simpl. case_store s; done. Qed.

Lemma registerClient_env (s : state) (c : string) (ws : handle) :
  redis_up (run (registerClient c ws) s) = redis_up s
  ∧ clock (run (registerClient c ws) s) = clock s.
Proof. unfold registerClient. monad_simpl. by case_store s. Qed.

Lemma filter_key_absent {V : Type} (l : list (string * V)) (i : string) :
  i ∉ l.*1 → filter (λ kv, kv.1 = i) l = [].
Proof.
  induction l as [|[k w] l IH]; intros Hi; [done|].
  rewrite fmap_cons in Hi. apply not_elem_of_cons in Hi as [Hne Hi].
  simpl in Hne. rewrite filter_cons_False by (simpl; congruence). by apply IH.
Qed.

Lemma filter_key_unique {V : Type} (l : list (string * V)) (i : string) (v : V) :
  NoDup l.*1 → (i, v) ∈ l → filter (λ kv, kv.1 = i) l = [(i, v)].
Proof.
  induction l as [|[k w] l IH]; intros Hnd Hin; [by apply elem_of_nil in Hin|].
  rewrite fmap_cons in Hnd. apply NoDup_cons in Hnd as [Hk Hnd]. simpl in Hk.
  apply elem_of_cons in Hin as [Heq|Hin].
  - inversion Heq; subst k w. rewrite filter_cons_True by done.
    by rewrite filter_key_absent.
  - assert (k ≠ i) as Hne.
    { intros ->. apply Hk. apply list_elem_of_fmap. by exists (i, v). }
    rewrite filter_cons_False by done. by apply IH.
Qed.

(** C9. Registering identity [i] with handle [h1] and then again with a
    new handle [h2]: the local map sends [i] to [h2]; its listing has
    exactly one entry for [i], the one holding [h2]; the only identities
    through which [h1] can still be reached are other identities that
    already held it before the first registration, so a handle that was
    registered for [i] only is no longer reachable; and, when the remote
    store is reachable, its registry hash has one field for [i], stamped
    by the second registration. No hypothesis on the store is needed for
    the local map, which is written first. *)
Theorem second_registration_overwrites (s : state) (i : string) (h1 h2 : handle) :
  h1 ≠ h2 →
  let s1 := run (registerClient i h1) s in
  let s2 := run (registerClient i h2) s1 in
  connections s1 !! i = Some h1
  ∧ connections s2 !! i = Some h2
  ∧ filter (λ kv, kv.1 = i) (map_to_list (connections s2)) = [(i, h2)]
  ∧ (∀ j, connections s2 !! j = Some h1 → j ≠ i ∧ connections s !! j = Some h1)
  ∧ (redis_up s = true →
     Redis.hash "connected_clients" (redis s2) !! i = Some (pretty (clock s))).
Proof.
  intros Hne s1 s2. subst s1 s2.
  rewrite !registerClient_connections.
  split; [by rewrite lookup_insert_eq|].
  split; [by rewrite lookup_insert_eq|].
  split.
  { apply filter_key_unique; [apply NoDup_fst_map_to_list|].
    apply elem_of_map_to_list. by rewrite lookup_insert_eq. }
  split.
  { intros j Hj. destruct (decide (i = j)) as [->|Hij].
    - rewrite lookup_insert_eq in Hj. congruence.
    - by rewrite !lookup_insert_ne in Hj. }
  intros Hup.
  destruct (registerClient_env s i h1) as [Hup1 Hclock1].
  rewrite registerClient_redis by congruence.
  rewrite Hclock1, hash_set_ex, hash_hset. by rewrite lookup_insert_eq.
Qed.

Lemma second_registration_overwrites_witness :
  let s := boot 0 in
  let s2 := run (registerClient "site-1" 2) (run (registerClient "site-1" 1) s) in
  connections s2 !! "site-1" = Some 2
  ∧ (∀ j, connections s2 !! j ≠ Some 1).
Proof.
  intros s s2.
  destruct (second_registration_overwrites s "site-1" 1 2) as (_ & H2 & _ & H4 & _);
    [lia|].
  split; [exact H2|].
  intros j Hj. apply H4 in Hj as [_ Hj].
  unfold s, boot in Hj. cbn [connections] in Hj. by rewrite lookup_empty in Hj.
Defined.

End Registry.

(** ** The tunnel handler and the HTTP trigger (server.js) *)

Section Handler.
Context `{Platform}.
Import ConnectionManager.

Lemma register_connections (s : state) (ws : handle) (c : string) :
  connections (run (Server.on_message ws (Wire.register c)) s)
  = <[c := ws]> (connections s).
Proof.
  unfold Server.on_message, registerClient. monad_simpl. by case_store s.
Qed.

Lemma register_env (s : state) (ws : handle) (c : string) :
  redis_up (run (Server.on_message ws (Wire.register c)) s) = redis_up s
  ∧ clock (run (Server.on_message ws (Wire.register c)) s) = clock s.
Proof.
  unfold Server.on_message, registerClient. monad_simpl. by case_store s.
Qed.

Lemma register_redis (s : state) (ws : handle) (c : string) :
  redis_up s = true →
  redis (run (Server.on_message ws (Wire.register c)) s)
  = Redis.set_ex (liveness_key c) "connected" 300 (clock s)
      (Redis.hset "connected_clients" c (pretty (clock s)) (redis s)).
Proof.
  intros Hup. unfold Server.on_message, registerClient. monad_simpl.
  by case_store s.
Qed.

Lemma register_bound (s : state) (ws : handle) (c : string) :
  is_Some (sockets s !! ws) →
  sockets (run (Server.on_message ws (Wire.register c)) s) !! ws ≫= bound_clientId
  = Some c.
Proof.
  intros [k Hk]. unfold Server.on_message, registerClient. monad_simpl.
  case_store s; rewrite ?lookup_alter_eq, Hk; done.
Qed.

Lemma register_other_socket (s : state) (ws ws' : handle) (c : string) :
  ws ≠ ws' →
  sockets (run (Server.on_message ws (Wire.register c)) s) !! ws' = sockets s !! ws'.
Proof.
  intros Hne. unfold Server.on_message, registerClient. monad_simpl.
  case_store s; rewrite ?lookup_alter_ne; done.
Qed.

Lemma register_readyState (s : state) (ws ws' : handle) (c : string) :
  readyState <$> sockets (run (Server.on_message ws (Wire.register c)) s) !! ws'
  = readyState <$> sockets s !! ws'.
Proof.
  unfold Server.on_message, registerClient. monad_simpl.
  destruct (decide (ws = ws')) as [->|Hne].
  - case_store s; rewrite ?lookup_alter_eq; by destruct (sockets s !! ws').
  - case_store s; by rewrite ?lookup_alter_ne.
Qed.

Lemma truthy_Some (c : string) : c ≠ "" → JS.truthy (Some c) = true.
Proof. intros Hc. simpl. by apply negb_true_iff, String.eqb_neq. Qed.

Lemma truthy_false (o : option string) :
  JS.truthy o = false ↔ o = None ∨ o = Some "".
Proof.
  destruct o as [c|]; simpl; [|by split; [left|]].
  rewrite negb_false_iff, String.eqb_eq. split.
  - intros ->. by right.
  - intros [|[= ->]]; done.
Qed.

Lemma bound_closed (m : gmap handle socket) (ws : handle) :
  alter closed ws m !! ws ≫= bound_clientId = m !! ws ≫= bound_clientId.
Proof. rewrite lookup_alter_eq. by destruct (m !! ws). Qed.

Lemma close_run (s : state) (ws : handle) :
  Server.on_close ws s =
    let s' := upd_sockets (alter closed ws) s in
    match sockets s !! ws ≫= bound_clientId with
    | Some c => if negb (String.eqb c "") then unregisterClient c s' else (Return (), s')
    | None => (Return (), s')
    end.
Proof.
  unfold Server.on_close. monad_simpl. rewrite !bound_closed.
  destruct (sockets s !! ws) as [k|]; simpl; [|done].
  destruct (bound_clientId k) as [c|]; simpl; [|done].
  by destruct (negb (c =? "")).
Qed.

Lemma unregisterClient_connections (s : state) (c : string) :
  connections (run (unregisterClient c) s) = delete c (connections s).
Proof. unfold unregisterClient. monad_simpl. by case_store s. Qed.

Lemma unregisterClient_redis (s : state) (c : string) :
  redis_up s = true →
  redis (run (unregisterClient c) s)
  = Redis.del (liveness_key c) (Redis.hdel "connected_clients" c (redis s)).
Proof. intros Hup. unfold unregisterClient. monad_simpl. by case_store s. Qed.

Lemma unregisterClient_rest (s : state) (c : string) :
  redis_up (run (unregisterClient c) s) = redis_up s
  ∧ sockets (run (unregisterClient c) s) = sockets s.
Proof. unfold unregisterClient. monad_simpl. by case_store s. Qed.


(** C10, as the code has it, for a non-empty identity. Tunnel [a]
    registers [i], tunnel [b] registers [i] again and supersedes it, then
    [a] closes: the close handler of [a] unregisters [i]. The local map
    has no handle for [i] any more although [b] is still open, and, when
    the remote store is reachable, the hash field and the expiring key of
    [i] are deleted and [isClientConnected i] answers [false]. *)
Theorem superseded_close_unregisters (s : state) (a b : handle) (i : string) :
  i ≠ "" → a ≠ b →
  is_Some (sockets s !! a) →
  readyState <$> sockets s !! b = Some OPEN →
  let s1 := run (Server.on_message a (Wire.register i)) s in
  let s2 := run (Server.on_message b (Wire.register i)) s1 in
  let s3 := run (Server.on_close a) s2 in
  connections s2 !! i = Some b
  ∧ connections s3 !! i = None
  ∧ readyState <$> sockets s3 !! b = Some OPEN
  ∧ (redis_up s = true →
     result (isClientConnected i) s3 = Return false
     ∧ Redis.hash "connected_clients" (redis s3) !! i = None
     ∧ Redis.keys (redis s3) !! liveness_key i = None).
Proof.
  intros Hi Hab Ha Hb s1 s2 s3.
  assert (sockets s2 !! a ≫= bound_clientId = Some i) as Hbound.
  { unfold s2. rewrite register_other_socket by done.
    by apply register_bound. }
  assert (s3 = run (unregisterClient i) (upd_sockets (alter closed a) s2)) as Hs3.
  { unfold s3, run. rewrite close_run. cbn zeta. rewrite Hbound.
    by rewrite (proj2 (String.eqb_neq i "")). }
  split; [unfold s2; by rewrite register_connections, lookup_insert_eq|].
  split; [by rewrite Hs3, unregisterClient_connections, lookup_delete_eq|].
  split.
  { rewrite Hs3, (proj2 (unregisterClient_rest _ _)). cbn [sockets upd_sockets].
    rewrite lookup_alter_ne by done.
    unfold s2, s1. by rewrite !register_readyState. }
  intros Hup.
  assert (redis_up (upd_sockets (alter closed a) s2) = true) as Hup2.
  { cbn [redis_up upd_sockets]. unfold s2, s1.
    by rewrite (proj1 (register_env _ _ _)), (proj1 (register_env _ _ _)). }
  assert (Redis.hash "connected_clients" (redis s3) !! i = None) as Hhash.
  { rewrite Hs3, unregisterClient_redis by done.
    by rewrite hash_del, hash_hdel, lookup_delete_eq. }
  split; [|split; [done|]].
  - assert (redis_up s3 = true) as Hup3.
    { by rewrite Hs3, (proj1 (unregisterClient_rest _ _)). }
    unfold result. rewrite isClientConnected_run, Hup3. cbn [fst].
    f_equal. apply andb_false_intro2.
    destruct (Redis.hexists _ _ _ =? 1)%Z eqn:He; [|done].
    apply hexists_one in He. rewrite Hhash in He. by destruct He.
  - rewrite Hs3, unregisterClient_redis by done.
    by rewrite keys_del, lookup_delete_eq.
Qed.

(** C8, as the code has it. A request whose [clientId] is missing or
    empty is answered 400 before the registry is consulted; a request
    for a non-empty identity for which [isClientConnected] answers
    [false] is answered 404. In both cases the whole state is unchanged:
    [initiateDownload] is not called and no transfer record is created. *)
Theorem trigger_for_disconnected (s : state) (body : option string) :
  (JS.truthy body = false →
   Server.post_download body s = (Return (failure 400 "clientId is required"), s))
  ∧ (∀ c, body = Some c → c ≠ "" →
     result (isClientConnected c) s = Return false →
     Server.post_download body s
     = (Return (failure 404 ("Client " +:+ c +:+ " is not connected")), s)).
Proof.
  split.
  - intros Hb. unfold Server.post_download, try_catch. by rewrite Hb.
  - intros c -> Hc Hfalse. unfold Server.post_download, try_catch.
    rewrite truthy_Some by done. cbn [negb].
    change (default "" (Some c)) with c.
    unfold mbind, M_bind at 1. unfold result in Hfalse.
    destruct (isClientConnected c s) as [o s'] eqn:Hrun.
    assert (s' = s) as ->.
    { pose proof (isClientConnected_state s c) as Hs.
      unfold run in Hs. by rewrite Hrun in Hs. }
    simpl in Hfalse. by subst o.
Qed.

End Handler.

(** C10 as stated fails for the empty identity, which the close handler
    treats as no registration at all: after the superseded tunnel closes,
    the newer handle is still registered and [isClientConnected] answers
    [true]. *)
Lemma superseded_close_keeps_empty_identity :
  let s := accept 2 "" (accept 1 "" (boot 0)) in
  let s1 := run (Server.on_message 1 (Wire.register "")) s in
  let s2 := run (Server.on_message 2 (Wire.register "")) s1 in
  let s3 := run (Server.on_close 1) s2 in
  connections s3 !! "" = Some 2
  ∧ result (ConnectionManager.isClientConnected "") s3 = Return true.
Proof. vm_compute. done. Qed.

Lemma superseded_close_unregisters_witness :
  let s := accept 2 "" (accept 1 "" (boot 0)) in
  let s1 := run (Server.on_message 1 (Wire.register "site-1")) s in
  let s2 := run (Server.on_message 2 (Wire.register "site-1")) s1 in
  let s3 := run (Server.on_close 1) s2 in
  connections s3 !! "site-1" = None
  ∧ result (ConnectionManager.isClientConnected "site-1") s3 = Return false.
Proof.
  intros s s1 s2 s3.
  destruct (superseded_close_unregisters s 1 2 "site-1") as (_ & H2 & _ & H4).
  - discriminate.
  - lia.
  - vm_compute. eauto.
  - vm_compute. reflexivity.
  - split; [exact H2|]. apply H4. reflexivity.
Defined.

(** C8 as stated fails for the empty identity: it is not connected, and the
    trigger answers 400, not 404. *)
Lemma trigger_empty_identity_is_bad_request :
  result (ConnectionManager.isClientConnected "") (boot 0) = Return false
  ∧ Server.post_download (Some "") (boot 0)
    = (Return (failure 400 "clientId is required"), boot 0).
Proof. vm_compute. done. Qed.

Lemma trigger_for_disconnected_witness :
  Server.post_download (Some "site-9") (boot 0)
  = (Return (failure 404 "Client site-9 is not connected"), boot 0)
  ∧ downloads (run (Server.post_download (Some "site-9")) (boot 0)) = ∅.
Proof.
  assert (Server.post_download (Some "site-9") (boot 0)
          = (Return (failure 404 "Client site-9 is not connected"), boot 0)) as E.
  { apply (proj2 (trigger_for_disconnected (boot 0) (Some "site-9")) "site-9").
    - reflexivity.
    - discriminate.
    - vm_compute. reflexivity. }
  split; [exact E|]. unfold run. rewrite E. reflexivity.
Defined.

(** ** The mutually authenticated handler (server-mtls.js) *)

Section Mtls.
Context `{Platform}.
Import ConnectionManager.

Lemma mtls_close_is_close (ws : handle) : ServerMtls.on_close ws = Server.on_close ws.
Proof. reflexivity. Qed.

(** A registration whose claim differs from the certificate subject:
    the variable is assigned, an error notice is sent, the tunnel is told
    to close, and the registry is not called. *)
Lemma mismatch_run (s : state) (ws : handle) (k : socket) (claimed : string) :
  sockets s !! ws = Some k → claimed ≠ peer_CN k →
  ServerMtls.on_message ws (Wire.register claimed) s
  = (Return (),
     upd_sockets (<[ws := start_closing (record_sent
         (Wire.error_notice "ClientId does not match certificate CN")
         (assign_bound claimed k))]>) s).
Proof.
  intros Hk Hne. unfold ServerMtls.on_message, ServerMtls.clientIdFromCert.
  monad_simpl. rewrite lookup_alter_eq, Hk. cbn [fmap option_fmap option_map].
  rewrite bool_decide_eq_true_2 by (cbn; congruence).
  simpl. f_equal. rewrite !upd_sockets_compose. apply upd_sockets_ext.
  apply map_eq. intros j. destruct (decide (ws = j)) as [<-|Hj].
  - by rewrite !lookup_alter_eq, lookup_insert_eq, Hk.
  - by rewrite !lookup_alter_ne, lookup_insert_ne.
Qed.

Lemma unregister_shrinks (s : state) (c : string) :
  let s' := run (unregisterClient c) s in
  connections s' = delete c (connections s)
  ∧ (∀ j v, Redis.hash "connected_clients" (redis s') !! j = Some v →
            Redis.hash "connected_clients" (redis s) !! j = Some v)
  ∧ (∀ j v, Redis.keys (redis s') !! j = Some v → Redis.keys (redis s) !! j = Some v).
Proof.
  intros s'. split; [apply unregisterClient_connections|].
  destruct (redis_up s) eqn:Hup.
  - subst s'. rewrite unregisterClient_redis by done.
    rewrite hash_del, hash_hdel, keys_del, keys_hdel.
    split; intros j v Hj; apply lookup_delete_Some in Hj; tauto.
  - assert (redis s' = redis s) as ->; [|done].
    subst s'. unfold unregisterClient. monad_simpl. by rewrite Hup.
Qed.

(** C7. Under mutual authentication, a registration message on an open
    tunnel whose claimed [clientId] differs from the certificate subject:
    an error notice is sent and the tunnel goes to [CLOSING], then to
    [CLOSED] when the close event is delivered; the message handler leaves
    the local map and the remote store as they were; and after the close
    handler has run, every entry of the local map, of the registry hash
    and of the expiring keys was already there before the message. So no
    entry is created for the claimed identity, for the certificate identity
    or for any other. *)
Theorem mismatch_closes_without_entry (s : state) (ws : handle) (k : socket)
    (claimed : string) :
  sockets s !! ws = Some k → readyState k = OPEN → claimed ≠ peer_CN k →
  let s1 := run (ServerMtls.on_message ws (Wire.register claimed)) s in
  let s2 := run (ServerMtls.on_close ws) s1 in
  readyState <$> sockets s1 !! ws = Some CLOSING
  ∧ readyState <$> sockets s2 !! ws = Some CLOSED
  ∧ sent <$> sockets s1 !! ws
    = Some (sent k ++ [Wire.error_notice "ClientId does not match certificate CN"])
  ∧ connections s1 = connections s ∧ redis s1 = redis s
  ∧ (∀ j h, connections s2 !! j = Some h → connections s !! j = Some h)
  ∧ (∀ j v, Redis.hash "connected_clients" (redis s2) !! j = Some v →
            Redis.hash "connected_clients" (redis s) !! j = Some v)
  ∧ (∀ j v, Redis.keys (redis s2) !! j = Some v → Redis.keys (redis s) !! j = Some v).
Proof.
  intros Hk Hopen Hne s1 s2.
  assert (s1 = upd_sockets (<[ws := start_closing (record_sent
            (Wire.error_notice "ClientId does not match certificate CN")
            (assign_bound claimed k))]>) s) as Hs1.
  { unfold s1, run. by rewrite (mismatch_run s ws k claimed). }
  assert (sockets s1 !! ws = Some (start_closing (record_sent
            (Wire.error_notice "ClientId does not match certificate CN")
            (assign_bound claimed k)))) as Hsock.
  { rewrite Hs1. cbn [sockets upd_sockets]. by rewrite lookup_insert_eq. }
  split; [rewrite Hsock; cbn; by rewrite Hopen|].
  assert (readyState <$> sockets s2 !! ws = Some CLOSED
          ∧ (s2 = upd_sockets (alter closed ws) s1
             ∨ s2 = run (unregisterClient claimed) (upd_sockets (alter closed ws) s1)))
    as [Hclosed Hs2].
  { unfold s2, run. rewrite mtls_close_is_close, close_run. cbn zeta.
    rewrite Hsock. cbn [mbind option_bind bound_clientId start_closing record_sent
                        assign_bound].
    destruct (negb (claimed =? "")).
    - split; [|by right].
      change ((unregisterClient claimed (upd_sockets (alter closed ws) s1)).2)
        with (run (unregisterClient claimed) (upd_sockets (alter closed ws) s1)).
      rewrite (proj2 (unregisterClient_rest _ _)). cbn [sockets upd_sockets].
      by rewrite lookup_alter_eq, Hsock.
    - split; [|by left]. cbn [snd sockets upd_sockets].
      by rewrite lookup_alter_eq, Hsock. }
  split; [done|].
  split; [by rewrite Hsock|].
  split; [by rewrite Hs1|].
  split; [by rewrite Hs1|].
  destruct Hs2 as [Hs2|Hs2].
  - rewrite Hs2, Hs1. cbn [connections redis upd_sockets]. eauto.
  - destruct (unregister_shrinks (upd_sockets (alter closed ws) s1) claimed)
      as (Hc & Hh & Hkeys).
    rewrite <- Hs2 in Hc, Hh, Hkeys.
    assert (connections (upd_sockets (alter closed ws) s1) = connections s) as Ec
      by (by rewrite Hs1).
    assert (redis (upd_sockets (alter closed ws) s1) = redis s) as Er
      by (by rewrite Hs1).
    rewrite Ec in Hc. rewrite Er in Hh, Hkeys.
    split; [|by split].
    intros j h Hj. rewrite Hc in Hj. apply lookup_delete_Some in Hj. tauto.
Qed.

End Mtls.

Lemma mismatch_closes_without_entry_witness :
  let s := accept 5 "site-2" (boot 0) in
  let s1 := run (ServerMtls.on_message 5 (Wire.register "site-3")) s in
  let s2 := run (ServerMtls.on_close 5) s1 in
  readyState <$> sockets s2 !! 5 = Some CLOSED
  ∧ connections s2 !! "site-2" = None
  ∧ connections s2 !! "site-3" = None.
Proof.
  intros s s1 s2.
  destruct (mismatch_closes_without_entry s 5
              {| peer_CN := "site-2"; bound_clientId := None;
                 readyState := OPEN; sent := [] |} "site-3")
    as (_ & Hclosed & _ & _ & _ & Hnone & _).
  - reflexivity.
  - reflexivity.
  - discriminate.
  - split; [exact Hclosed|].
    split.
    + destruct (connections s2 !! "site-2") as [h|] eqn:E; [|reflexivity].
      apply Hnone in E. discriminate E.
    + destruct (connections s2 !! "site-3") as [h|] eqn:E; [|reflexivity].
      apply Hnone in E. discriminate E.
Defined.

(** ** Arrays with holes *)

Section Arrays.
Import JS.

Lemma slot_array_set (a : list (option bytes)) (i j : nat) (v : bytes) :
  slot (array_set a i v) j = if decide (j = i) then Some v else slot a j.
Proof.
  unfold slot, array_set, array. destruct (decide (i < length a)) as [Hlt|Hge].
  - destruct (decide (j = i)) as [->|Hne].
    + by rewrite list_lookup_insert_eq.
    + by rewrite list_lookup_insert_ne.
  - destruct (decide (j < length a)) as [Hj|Hj].
    + rewrite lookup_app_l by done. rewrite decide_False by lia. done.
    + rewrite lookup_app_r by lia.
      rewrite (lookup_ge_None_2 a j) by lia.
      destruct (decide (j < i)) as [Hji|Hji].
      * rewrite lookup_app_l by (rewrite length_replicate; lia).
        rewrite lookup_replicate_2 by lia. rewrite decide_False by lia. done.
      * rewrite lookup_app_r by (rewrite length_replicate; lia).
        rewrite length_replicate.
        destruct (decide (j = i)) as [->|Hne].
        -- replace (i - length a - (i - length a)) with 0 by lia. done.
        -- destruct (j - length a - (i - length a)) as [|n] eqn:E; [lia|done].
Qed.

Lemma length_array_set (a : list (option bytes)) (i : nat) (v : bytes) :
  length (array_set a i v) = length a `max` S i.
Proof.
  unfold array_set, array. destruct (decide (i < length a)).
  - rewrite length_insert. lia.
  - rewrite !length_app, length_replicate. cbn. lia.
Qed.

Lemma slot_in_range (a : list (option bytes)) (j : nat) : is_Some (slot a j) → j < length a.
Proof.
  unfold slot, array. intros [v Hv]. apply lookup_lt_is_Some.
  destruct (a !! j); [by eexists | done].
Qed.

(** The array after the writes [a[c.1] = f c.2], in the order of [cs]. *)
Lemma fill_untouched (f : string → bytes) (cs : list (nat * string)) :
  ∀ (a : list (option bytes)) (j : nat), j ∉ cs.*1 →
  slot (foldl (λ a c, array_set a c.1 (f c.2)) a cs) j = slot a j.
Proof.
  induction cs as [|c cs IH]; intros a j Hj; [done|].
  rewrite fmap_cons in Hj. apply not_elem_of_cons in Hj as [Hne Hj].
  cbn [foldl]. rewrite IH by done. rewrite slot_array_set.
  by rewrite decide_False.
Qed.

Lemma fill_written (f : string → bytes) (cs : list (nat * string)) :
  ∀ (a : list (option bytes)) (j : nat) (x : string), NoDup cs.*1 → (j, x) ∈ cs →
  slot (foldl (λ a c, array_set a c.1 (f c.2)) a cs) j = Some (f x).
Proof.
  induction cs as [|c cs IH]; intros a j x Hnd Hin; [by apply elem_of_nil in Hin|].
  rewrite fmap_cons in Hnd. apply NoDup_cons in Hnd as [Hc Hnd].
  cbn [foldl]. apply elem_of_cons in Hin as [<-|Hin].
  - rewrite fill_untouched by done. rewrite slot_array_set.
    by rewrite decide_True.
  - by apply IH.
Qed.

Lemma fill_length (f : string → bytes) (n : nat) (cs : list (nat * string)) :
  ∀ a : list (option bytes), Forall (λ c, c.1 < n) cs → (length a ≤ n)%nat →
  (length (foldl (λ a c, array_set a c.1 (f c.2)) a cs) ≤ n)%nat.
Proof.
  induction cs as [|c cs IH]; intros a Hall Ha; [done|].
  apply Forall_cons in Hall as [Hc Hall]. cbn [foldl].
  apply IH; [done|]. rewrite length_array_set. lia.
Qed.

(** An array all of whose slots are filled is joined in index order. *)
Lemma Buffer_concat_full (g : nat * string → bytes) (l : list (nat * string)) :
  ∀ a : list (option bytes), length a = length l →
  (∀ j x, l !! j = Some x → slot a j = Some (g x)) →
  Buffer_concat a = Some (concat (map g l)).
Proof.
  induction l as [|x l IH]; intros a Hlen Hslot.
  - destruct a; [done|discriminate].
  - destruct a as [|y a]; [discriminate|].
    pose proof (Hslot 0 x eq_refl) as H0. unfold slot in H0. cbn in H0. subst y.
    cbn [Buffer_concat map concat]. rewrite (IH a).
    + done.
    + cbn in Hlen. lia.
    + intros j z Hj. exact (Hslot (S j) z Hj).
Qed.

(** Writes that cover [0..n-1] exactly once, in any order, leave the
    array that lists the payloads by index. *)
Lemma fill_assembles (f : string → bytes) (n : nat) (cs sorted : list (nat * string)) :
  Permutation sorted cs → sorted.*1 = seq 0 n →
  Buffer_concat (foldl (λ a c, array_set a c.1 (f c.2)) [] cs)
  = Some (concat (map (λ c, f c.2) sorted)).
Proof.
  intros Hperm Hseq.
  assert (NoDup cs.*1) as Hnd.
  { rewrite <- Hperm, Hseq. apply NoDup_seq. }
  assert (∀ j x, sorted !! j = Some x → x.1 = j ∧ j < n ∧ x ∈ cs) as Hsorted.
  { intros j x Hj.
    assert (sorted.*1 !! j = Some x.1) as Hj1 by (by rewrite list_lookup_fmap, Hj).
    rewrite Hseq in Hj1. apply lookup_seq in Hj1 as [Hx Hlt].
    split; [by cbn in Hx|]. split; [done|].
    rewrite <- Hperm. by eapply list_elem_of_lookup_2. }
  assert (length sorted = n) as Hlen.
  { by rewrite <- (length_fmap fst), Hseq, length_seq. }
  assert (∀ j x, sorted !! j = Some x →
            slot (foldl (λ a c, array_set a c.1 (f c.2)) [] cs) j = Some (f x.2))
    as Hslot.
  { intros j x Hj. destruct (Hsorted j x Hj) as (Hx & _ & Hin).
    apply fill_written; [done|]. destruct x as [k y]. cbn in Hx. by subst k. }
  apply Buffer_concat_full; [|done].
  rewrite Hlen. apply Nat.le_antisymm.
  - apply fill_length; [|cbn; lia].
    apply Forall_forall. intros c Hc. rewrite <- Hperm in Hc.
    apply list_elem_of_lookup in Hc as [j Hj].
    destruct (Hsorted j c Hj) as (-> & Hlt & _). done.
  - destruct n as [|n]; [lia|].
    destruct (lookup_lt_is_Some_2 sorted n) as [x Hx]; [lia|].
    apply Nat.le_succ_l. apply slot_in_range. rewrite (Hslot n x Hx). by eexists.
Qed.

End Arrays.

(** ** The transfer coordinator *)

Section Coordinator.
Context `{Platform}.
Import DownloadManager.

#[local] Arguments pretty : simpl never.
#[local] Arguments JS.array_set : simpl never.
#[local] Arguments percentage : simpl never.
#[local] Arguments JS.incr : simpl never.
#[local] Arguments destination : simpl never.
#[local] Arguments key : simpl never.

(** [handleError] on a known transfer: the record is marked, then the
    store is written; the promise rejects when the store is unreachable. *)
Lemma handleError_run (s : state) (id message : string) (d : download) :
  downloads s !! id = Some d →
  handleError id message s =
    let s1 := upd_downloads (<[id := assign_failed message (clock s) d]>) s in
    if redis_up s
    then (Return (), upd_redis (λ _, Redis.hmset (key id)
            [("status", "failed"); ("error", message); ("endTime", pretty (clock s))]
            (redis s)) s1)
    else (Throw "Redis connection lost", s1).
Proof.
  intros Hd. unfold handleError. monad_simpl. rewrite Hd. simpl.
  by case_store s.
Qed.

Lemma handleError_unknown (s : state) (id message : string) :
  downloads s !! id = None → handleError id message s = (Return (), s).
Proof. intros Hd. unfold handleError. monad_simpl. by rewrite Hd. Qed.

Lemma handleError_fields (s : state) (id message : string) (d : download) :
  downloads s !! id = Some d →
  let s' := run (handleError id message) s in
  downloads s' = <[id := assign_failed message (clock s) d]> (downloads s)
  ∧ disk s' = disk s ∧ fs_calls s' = fs_calls s ∧ disk_ok s' = disk_ok s
  ∧ redis_up s' = redis_up s ∧ clock s' = clock s.
Proof.
  intros Hd s'. subst s'. unfold run. rewrite (handleError_run s id message d Hd).
  cbn zeta. by case_store s.
Qed.

(** [completeDownload] on a known transfer. Either the assembly throws
    and the handler of the [catch] runs on an untouched state; or
    [fs.writeFile] is called with the assembled data. A failed write sends
    the record to [handleError]; after a successful one the record is marked
    completed, and an unreachable store still sends it to [handleError]. *)
Lemma completeDownload_run (s : state) (id : string) (d : download) :
  downloads s !! id = Some d →
  (∃ e, (∀ a, chunks d = Some a → JS.Buffer_concat a = None)
        ∧ completeDownload id s = handleError id e s)
  ∨ (∃ a b, chunks d = Some a ∧ JS.Buffer_concat a = Some b
       ∧ let s0 := upd_fs_calls (λ calls, calls ++ [(destination d, b)]) s in
         let s1 := upd_downloads (<[id := assign_completed (destination d) (clock s) d]>)
                     (upd_disk (<[destination d := b]>) s0) in
         if disk_ok s
         then
           if redis_up s
           then completeDownload id s =
                  (Return (), upd_redis (λ _, Redis.hmset (key id)
                     [("status", "completed"); ("endTime", pretty (clock s));
                      ("filePath", destination d);
                      ("duration", pretty (clock s - startTime d)%Z)] (redis s)) s1)
           else completeDownload id s = handleError id "Redis connection lost" s1
         else completeDownload id s = handleError id "EIO: write failed" s0).
Proof.
  intros Hd. unfold completeDownload, concat_chunks. monad_simpl. rewrite Hd. simpl.
  destruct (chunks d) as [a|] eqn:Ha; simpl.
  2:{ left. eexists. split; [done|]. unfold handleError. by monad_simpl. }
  destruct (JS.Buffer_concat a) as [b|] eqn:Hb; simpl.
  2:{ left. eexists. split; [congruence|]. unfold handleError. by monad_simpl. }
  right. exists a, b. split; [done|]. split; [done|].
  destruct (disk_ok s) eqn:Hok; simpl.
  2:{ unfold handleError. by monad_simpl. }
  case_store s; [done|]. unfold handleError. by monad_simpl.
Qed.

(** What [completeDownload] does to the records: the one it is called for
    ends completed or failed and keeps its counters; the others are not
    touched. *)
Lemma completeDownload_record (s : state) (id : string) (d : download) :
  downloads s !! id = Some d →
  let s' := run (completeDownload id) s in
  ∃ d', downloads s' !! id = Some d'
    ∧ (status d' = completed ∨ status d' = failed)
    ∧ receivedChunks d' = receivedChunks d
    ∧ progress d' = progress d
    ∧ totalChunks d' = totalChunks d
    ∧ (is_Some (chunks d') → chunks d' = chunks d)
    ∧ (∀ j, j ≠ id → downloads s' !! j = downloads s !! j).
Proof.
  intros Hd s'. subst s'.
  destruct (completeDownload_run s id d Hd) as [(e & _ & Hrun)|(a & b & Ha & Hb & Hrun)].
  - rewrite (run_eq _ (handleError id e) s s) by (by rewrite Hrun).
    destruct (handleError_fields s id e d Hd) as (-> & _).
    eexists. split; [apply lookup_insert_eq|].
    repeat split; try done; [by right|].
    intros j Hj. by rewrite lookup_insert_ne.
  - cbn zeta in Hrun. destruct (disk_ok s); [destruct (redis_up s)|].
    + rewrite (run_is _ _ _ _ Hrun).
      cbn [downloads upd_redis upd_downloads upd_disk upd_fs_calls].
      eexists. split; [apply lookup_insert_eq|].
      repeat split; try done; [by left | by intros [? [=]] |].
      intros j Hj. by rewrite lookup_insert_ne.
    + rewrite (run_eq _ (handleError id "Redis connection lost") s _)
        by (by rewrite Hrun).
      match goal with
      | |- context [run (handleError id ?e) ?s1] =>
          destruct (handleError_fields s1 id e _ (lookup_insert_eq (downloads s) id _))
            as (-> & _)
      end.
      cbn [downloads upd_downloads upd_disk upd_fs_calls].
      eexists. split; [apply lookup_insert_eq|].
      repeat split; try done; [by right | by intros [? [=]] |].
      intros j Hj. by rewrite !lookup_insert_ne.
    + rewrite (run_eq _ (handleError id "EIO: write failed") s _)
        by (by rewrite Hrun).
      match goal with
      | |- context [run (handleError id ?e) ?s1] =>
          destruct (handleError_fields s1 id e d Hd) as (-> & _)
      end.
      cbn [downloads upd_fs_calls].
      eexists. split; [apply lookup_insert_eq|].
      repeat split; try done; [by right|].
      intros j Hj. by rewrite lookup_insert_ne.
Qed.

Lemma initializeDownload_downloads (s : state) (id name : string) (size total : Z)
    (d : download) :
  downloads s !! id = Some d →
  downloads (run (initializeDownload id name size total) s)
  = <[id := assign_metadata name size total d]> (downloads s).
Proof.
  intros Hd. unfold initializeDownload. monad_simpl. rewrite Hd. simpl.
  by case_store s.
Qed.

(** [handleChunk] on a known transfer whose buffers are still there. *)
Lemma handleChunk_run (s : state) (id : string) (i : nat) (data : string)
    (isLast : bool) (d : download) (a : JS.array) :
  downloads s !! id = Some d → chunks d = Some a →
  handleChunk id i data isLast s =
    let received := JS.incr (default 0%Z (receivedChunks d)) in
    let s1 := upd_downloads (<[id :=
                assign_chunk (JS.array_set a i (base64_decode data)) received
                  (percentage received (totalChunks d)) d]>) s in
    if isLast then completeDownload id s1 else (Return (), s1).
Proof.
  intros Hd Ha. unfold handleChunk. monad_simpl. rewrite Hd. simpl. rewrite Ha.
  by destruct isLast.
Qed.

(** After completion the buffers are gone and the first statement of
    [handleChunk] throws; nothing has been assigned yet. *)
Lemma handleChunk_deleted (s : state) (id : string) (i : nat) (data : string)
    (isLast : bool) (d : download) :
  downloads s !! id = Some d → chunks d = None →
  handleChunk id i data isLast s = (Throw "Cannot set properties of undefined", s).
Proof.
  intros Hd Ha. unfold handleChunk. monad_simpl. rewrite Hd. simpl. by rewrite Ha.
Qed.

Lemma handleChunk_unknown (s : state) (id : string) (i : nat) (data : string)
    (isLast : bool) :
  downloads s !! id = None → handleChunk id i data isLast s = (Return (), s).
Proof. intros Hd. unfold handleChunk. monad_simpl. by rewrite Hd. Qed.

Lemma nearest_or_tie_64 :
  forallb (λ t, forallb (λ r, nearest_or_tie r t) (seq 0 (S t))) (seq 1 64) = true.
Proof. vm_compute. reflexivity. Qed.

(** The progress is the nearest integer percentage for every transfer of
    up to 64 chunks, except on exact ties, where the rounding of the double
    product decides. *)
Lemma percentage_nearest (received total : Z) :
  (1 ≤ total ≤ 64)%Z → (0 ≤ received ≤ total)%Z →
  ((200 * received + total) mod (2 * total) ≠ 0)%Z →
  percentage received (Some total) = JS.of_Z (nearest_percent received total).
Proof.
  intros Ht Hr Htie.
  pose proof (proj1 (forallb_forall _ _) nearest_or_tie_64 (Z.to_nat total)
                ltac:(apply in_seq; lia)) as Hrow.
  pose proof (proj1 (forallb_forall _ _) Hrow (Z.to_nat received)
                ltac:(apply in_seq; lia)) as Hcell.
  clear Hrow. unfold nearest_or_tie in Hcell.
  cbn zeta in Hcell. rewrite !Z2Nat.id in Hcell by lia.
  apply orb_true_iff in Hcell as [Hz|Hb].
  - apply Z.eqb_eq in Hz. done.
  - by apply bool_decide_eq_true in Hb.
Qed.

(** On a tie the double product can fall short: 23 of 40 is 57.5 exactly,
    the product is 57.49999999999999 and the progress 57. *)
Example percentage_tie :
  percentage 23 (Some 40%Z) = JS.of_Z 57 ∧ nearest_percent 23 40 = 58%Z.
Proof. vm_compute. done. Qed.

(** C4, as the code has it. On a known transfer whose buffers have not
    been discarded, [handleChunk] stores [receivedChunks || 0] plus one and
    sets [progress] to [Math.round] (not [Math.floor]) of
    [receivedChunks / totalChunks * 100], a double-precision product, taken
    on the count just incremented; a completion triggered by [isLast] keeps
    both fields. *)
Theorem chunk_sets_rounded_progress (s : state) (id : string) (i : nat)
    (data : string) (isLast : bool) (d : download) :
  downloads s !! id = Some d → is_Some (chunks d) →
  let received := JS.incr (default 0%Z (receivedChunks d)) in
  ∃ d', downloads (run (handleChunk id i data isLast) s) !! id = Some d'
    ∧ receivedChunks d' = Some received
    ∧ progress d' = JS.Math_round
        (JS.mul (JS.div (JS.of_Z received) (JS.to_number (totalChunks d))) (JS.of_Z 100)).
Proof.
  intros Hd [a Ha] received.
  pose proof (handleChunk_run s id i data isLast d a Hd Ha) as Hrun.
  cbn zeta in Hrun. fold received in Hrun. destruct isLast.
  - rewrite (run_eq _ (completeDownload id) s _) by (by rewrite Hrun).
    match goal with
    | |- context [run (completeDownload id) ?s1] =>
        destruct (completeDownload_record s1 id _ (lookup_insert_eq (downloads s) id _))
          as (d' & Hd' & _ & Hr & Hp & _)
    end.
    exists d'. split; [exact Hd'|]. by rewrite Hr, Hp.
  - rewrite (run_is _ _ _ _ Hrun). cbn [downloads upd_downloads]. eexists.
    split; [apply lookup_insert_eq|]. done.
Qed.

(** C2, as the code has it. No operation reads the current status:
    [onMetadata] always leaves [downloading], [fail] always leaves [failed],
    [complete] leaves [completed] or [failed], and [onChunk] leaves the
    status alone unless [isLast] triggers a completion. Hence the status
    never returns to [initiated] and, from [initiated] or [downloading], it
    only moves forward; a terminal record is not protected. Records of
    other transfers are not touched. *)
Theorem status_after_operation (s : state) (op : operation) (id : string)
    (d : download) :
  downloads s !! id = Some d →
  let s' := run (perform op id) s in
  ∃ d', downloads s' !! id = Some d'
    ∧ (terminal (status d) = false → (rank (status d) ≤ rank (status d'))%nat)
    ∧ (status d' = initiated → status d = initiated)
    ∧ match op with
      | onMetadata _ _ _ => status d' = downloading
      | onChunk _ _ isLast =>
          status d' = status d ∨ (isLast = true ∧ terminal (status d') = true)
      | complete => terminal (status d') = true
      | fail _ => status d' = failed
      end
    ∧ (∀ j, j ≠ id → downloads s' !! j = downloads s !! j).
Proof.
  intros Hd s'.
  assert (∃ d', downloads s' !! id = Some d'
    ∧ match op with
      | onMetadata _ _ _ => status d' = downloading
      | onChunk _ _ isLast =>
          status d' = status d ∨ (isLast = true ∧ terminal (status d') = true)
      | complete => terminal (status d') = true
      | fail _ => status d' = failed
      end
    ∧ (∀ j, j ≠ id → downloads s' !! j = downloads s !! j)) as (d' & Hd' & Hop & Hother).
  { subst s'. destruct op as [name size total|i data isLast| |reason]; cbn [perform].
    - rewrite (initializeDownload_downloads s id name size total d Hd).
      eexists. split; [apply lookup_insert_eq|]. split; [done|].
      intros j Hj. by rewrite lookup_insert_ne.
    - destruct (chunks d) as [a|] eqn:Ha.
      + pose proof (handleChunk_run s id i data isLast d a Hd Ha) as Hrun.
        cbn zeta in Hrun. destruct isLast.
        * rewrite (run_eq _ (completeDownload id) s _) by (by rewrite Hrun).
          match goal with
          | |- context [run (completeDownload id) ?s1] =>
              destruct (completeDownload_record s1 id _
                          (lookup_insert_eq (downloads s) id _))
                as (d' & Hd' & Hst & _ & _ & _ & _ & Hother)
          end.
          exists d'. split; [exact Hd'|]. split.
          { right. split; [done|]. by destruct Hst as [-> | ->]. }
          intros j Hj. rewrite Hother by done.
          cbn [downloads upd_downloads]. by rewrite lookup_insert_ne.
        * rewrite (run_is _ _ _ _ Hrun). cbn [downloads upd_downloads].
          eexists. split; [apply lookup_insert_eq|]. split; [by left|].
          intros j Hj. by rewrite lookup_insert_ne.
      + rewrite (run_is _ _ _ _ (handleChunk_deleted s id i data isLast d Hd Ha)).
        exists d. split; [done|]. split; [by left|done].
    - destruct (completeDownload_record s id d Hd)
        as (d' & Hd' & Hst & _ & _ & _ & _ & Hother).
      exists d'. split; [exact Hd'|]. split; [|done].
      by destruct Hst as [-> | ->].
    - destruct (handleError_fields s id reason d Hd) as (-> & _).
      eexists. split; [apply lookup_insert_eq|]. split; [done|].
      intros j Hj. by rewrite lookup_insert_ne. }
  exists d'. split; [exact Hd'|].
  assert (status d' = initiated → status d = initiated) as Hinit.
  { intros Hi. destruct op; rewrite Hi in Hop; try done.
    destruct Hop as [<-|[_ ?]]; done. }
  split; [|by split].
  intros Hnt. destruct (status d) eqn:Es; try done; [cbn; lia|].
  destruct (status d') eqn:Es'; cbn; try lia. by specialize (Hinit eq_refl).
Qed.

(** *** Counting chunk messages *)

Lemma incr_spec (n : Z) :
  (0 ≤ n ≤ 2 ^ 53)%Z →
  JS.incr n = Z.min (n + 1) (2 ^ 53) ∧ (n ≤ JS.incr n ≤ n + 1)%Z
  ∧ (JS.incr n ≤ 2 ^ 53)%Z.
Proof.
  unfold JS.incr. change (2 ^ 53)%Z with 9007199254740992%Z.
  intros Hn. destruct (Z.ltb_spec n 9007199254740992); lia.
Qed.

(** The message handler swallows what [handleChunk] throws. *)
Lemma chunk_frame_run (s : state) (ws : handle) (id : string)
    (c : nat * string * bool) :
  run (Server.on_message ws (chunk_frame id c)) s
  = run (handleChunk id c.1.1 c.1.2 c.2) s.
Proof.
  unfold chunk_frame, Server.on_message, run, try_catch.
  by destruct (handleChunk id c.1.1 c.1.2 c.2 s) as [[?|?] ?].
Qed.

(** One chunk message: the counter is incremented once or, when the
    message is refused, not at all. *)
Lemma handleChunk_counts (s : state) (id : string) (i : nat) (data : string)
    (isLast : bool) (d : download) :
  downloads s !! id = Some d →
  ∃ d', downloads (run (handleChunk id i data isLast) s) !! id = Some d'
    ∧ totalChunks d' = totalChunks d
    ∧ (receivedChunks d' = receivedChunks d
       ∨ receivedChunks d' = Some (JS.incr (default 0%Z (receivedChunks d))))
    ∧ (isLast = false → is_Some (chunks d) →
       receivedChunks d' = Some (JS.incr (default 0%Z (receivedChunks d)))
       ∧ is_Some (chunks d')).
Proof.
  intros Hd. destruct (chunks d) as [a|] eqn:Ha.
  - pose proof (handleChunk_run s id i data isLast d a Hd Ha) as Hrun.
    cbn zeta in Hrun. destruct isLast.
    + rewrite (run_eq _ (completeDownload id) s _) by (by rewrite Hrun).
      match goal with
      | |- context [run (completeDownload id) ?s1] =>
          destruct (completeDownload_record s1 id _
                      (lookup_insert_eq (downloads s) id _))
            as (d' & Hd' & _ & Hr & _ & Ht & _)
      end.
      exists d'. split; [exact Hd'|]. split; [exact Ht|]. split; [by right|done].
    + rewrite (run_is _ _ _ _ Hrun). cbn [downloads upd_downloads].
      eexists. split; [apply lookup_insert_eq|]. split; [done|].
      split; [by right|]. intros _ _. split; [done|]. by eexists.
  - rewrite (run_is _ _ _ _ (handleChunk_deleted s id i data isLast d Hd Ha)).
    exists d. split; [done|]. split; [done|]. split; [by left|].
    intros _ [? [=]].
Qed.

Lemma deliver_counts (ws : handle) (id : string) (cs : list (nat * string * bool)) :
  ∀ (s : state) (d : download) (r0 : Z),
  downloads s !! id = Some d → receivedChunks d = Some r0 → (0 ≤ r0 ≤ 2 ^ 53)%Z →
  ∃ d' r, downloads (deliver ws (map (chunk_frame id) cs) s) !! id = Some d'
    ∧ receivedChunks d' = Some r
    ∧ totalChunks d' = totalChunks d
    ∧ (r0 ≤ r ≤ r0 + Z.of_nat (length cs))%Z ∧ (r ≤ 2 ^ 53)%Z
    ∧ (is_Some (chunks d) → Forall (λ c, c.2 = false) cs →
       r = Z.min (r0 + Z.of_nat (length cs)) (2 ^ 53)).
Proof.
  induction cs as [|c cs IH]; intros s d r0 Hd Hr Hr0.
  - exists d, r0. cbn. repeat split; try done; try lia.
  - cbn [map deliver foldl]. rewrite chunk_frame_run.
    destruct (handleChunk_counts s id c.1.1 c.1.2 c.2 d Hd)
      as (d1 & Hd1 & Ht1 & Hr1 & Hfalse).
    rewrite Hr in Hr1, Hfalse. change (default 0%Z (Some r0)) with r0 in Hr1, Hfalse.
    destruct (incr_spec r0 Hr0) as (Hmin & Hbounds & Hcap).
    assert (∃ r1, receivedChunks d1 = Some r1 ∧ (r0 ≤ r1 ≤ r0 + 1)%Z
                  ∧ (r1 ≤ 2 ^ 53)%Z) as (r1 & Er1 & Hb1 & Hc1).
    { destruct Hr1 as [-> | ->]; eexists; (split; [done|]); lia. }
    destruct (IH _ d1 r1 Hd1 Er1 ltac:(lia)) as (d' & r & Hd' & Er & Ht & Hb & Hc & Hex).
    exists d', r. split; [exact Hd'|]. split; [exact Er|].
    split; [congruence|]. cbn [length]. split; [lia|]. split; [lia|].
    intros Hch Hall. apply Forall_cons in Hall as [Hc0 Hall].
    destruct (Hfalse Hc0 Hch) as [Er1' Hch1].
    rewrite Er1' in Er1. injection Er1 as <-.
    rewrite (Hex Hch1 Hall), Hmin. lia.
Qed.

(** C6, as the code has it. [receivedChunks] counts chunk messages, not
    distinct indices: after the metadata, once [n] chunk messages were
    handled it is at most [n], and exactly [n] (below the precision limit
    [2^53] of the counter) when none of them was flagged last. So it stays
    within [totalChunks] as long as no more than [totalChunks] chunk
    messages arrived; an index that arrives again is counted again. *)
Theorem received_counts_messages (s : state) (ws : handle) (id : string)
    (d : download) (total : Z) (cs : list (nat * string * bool)) :
  downloads s !! id = Some d →
  receivedChunks d = Some 0%Z → totalChunks d = Some total →
  let s' := deliver ws (map (chunk_frame id) cs) s in
  ∃ d' r, downloads s' !! id = Some d'
    ∧ receivedChunks d' = Some r ∧ totalChunks d' = Some total
    ∧ (0 ≤ r ≤ Z.of_nat (length cs))%Z
    ∧ (Z.of_nat (length cs) ≤ total → r ≤ total)%Z
    ∧ (is_Some (chunks d) → Forall (λ c, c.2 = false) cs →
       r = Z.min (Z.of_nat (length cs)) (2 ^ 53)).
Proof.
  intros Hd Hr Ht s'.
  destruct (deliver_counts ws id cs s d 0 Hd Hr) as (d' & r & Hd' & Er & Ht' & Hb & _ & Hex).
  { change (2 ^ 53)%Z with 9007199254740992%Z. lia. }
  exists d', r. split; [exact Hd'|]. split; [exact Er|].
  split; [congruence|]. split; [lia|]. split; [lia|].
  intros Hch Hall. by rewrite (Hex Hch Hall).
Qed.

(** *** Assembly *)

(** Chunk messages that are not flagged last only fill the array. *)
Lemma deliver_fills (ws : handle) (id : string) (pre : list (nat * string * bool)) :
  ∀ (s : state) (d : download) (a : JS.array),
  downloads s !! id = Some d → chunks d = Some a →
  Forall (λ c, c.2 = false) pre →
  let s' := deliver ws (map (chunk_frame id) pre) s in
  ∃ d', downloads s' !! id = Some d'
    ∧ chunks d' = Some (foldl (λ a c, JS.array_set a c.1 (base64_decode c.2)) a
                          (map fst pre))
    ∧ destination d' = destination d ∧ status d' = status d
    ∧ disk s' = disk s ∧ fs_calls s' = fs_calls s
    ∧ disk_ok s' = disk_ok s ∧ redis_up s' = redis_up s.
Proof.
  induction pre as [|c pre IH]; intros s d a Hd Ha Hall; cbn zeta.
  - exists d. by cbn.
  - apply Forall_cons in Hall as [Hc Hall].
    cbn [map deliver foldl]. rewrite chunk_frame_run.
    pose proof (handleChunk_run s id c.1.1 c.1.2 c.2 d a Hd Ha) as Hrun.
    cbn zeta in Hrun. rewrite Hc in Hrun. rewrite Hc, (run_is _ _ _ _ Hrun).
    match goal with
    | |- context [foldl _ (upd_downloads (<[id := ?d1]>) s)] =>
        destruct (IH (upd_downloads (<[id := d1]>) s) d1
                    (JS.array_set a c.1.1 (base64_decode c.1.2))
                    (lookup_insert_eq (downloads s) id d1) eq_refl Hall)
          as (d' & Hd' & Hch & Hdest & Hst & Hdisk & Hcalls & Hok & Hup)
    end.
    exists d'. split; [exact Hd'|]. split; [exact Hch|]. by repeat split.
Qed.

(** C1. A transfer whose metadata has been received and that has no chunk
    yet; chunk messages whose indices cover [0..N-1] exactly once, in any
    arrival order, the final one flagged last and no other. Then completion
    runs once: the only call of [fs.writeFile] hands over, for the
    destination of the transfer, the concatenation of the decoded payloads
    taken in index order, [sorted] being the rearrangement of the messages
    by index. That is the content of the file when the write succeeds, and
    the record ends [completed] when the remote store is reachable too. *)
Theorem assembly_in_index_order (s : state) (ws : handle) (id : string)
    (d : download) (N : nat) (pre : list (nat * string * bool))
    (i : nat) (data : string) (sorted : list (nat * string)) :
  downloads s !! id = Some d →
  chunks d = Some [] → totalChunks d = Some (Z.of_nat N) →
  Forall (λ c, c.2 = false) pre →
  Permutation sorted (map fst (pre ++ [(i, data, true)])) →
  sorted.*1 = seq 0 N →
  let s' := deliver ws (map (chunk_frame id) (pre ++ [(i, data, true)])) s in
  let file := concat (map (λ c, base64_decode c.2) sorted) in
  fs_calls s' = fs_calls s ++ [(destination d, file)]
  ∧ (disk_ok s = true → disk s' !! destination d = Some file)
  ∧ (disk_ok s = true → redis_up s = true →
     status <$> downloads s' !! id = Some completed).
Proof.
  intros Hd Hch _ Hall Hperm Hseq. cbn zeta.
  unfold deliver. rewrite map_app, foldl_app. cbn [map foldl].
  fold (deliver ws (map (chunk_frame id) pre) s).
  destruct (deliver_fills ws id pre s d [] Hd Hch Hall)
    as (d1 & Hd1 & Hch1 & Hdest & _ & Hdisk & Hcalls & Hok1 & Hup1).
  set (s1 := deliver ws (map (chunk_frame id) pre) s) in *.
  rewrite chunk_frame_run. cbn [fst snd].
  pose proof (handleChunk_run s1 id i data true d1 _ Hd1 Hch1) as Hrun.
  cbn zeta in Hrun.
  rewrite (run_eq _ (completeDownload id) s1 _) by (by rewrite Hrun).
  clear Hrun.
  match goal with
  | |- context [run (completeDownload id) (upd_downloads (<[id := ?x]>) s1)] =>
      set (d2 := x) in *;
      pose proof (completeDownload_run (upd_downloads (<[id := d2]>) s1) id d2
                    (lookup_insert_eq (downloads s1) id d2)) as Hcases
  end.
  assert (JS.Buffer_concat
            (JS.array_set
               (foldl (λ a c, JS.array_set a c.1 (base64_decode c.2)) [] (map fst pre))
               i (base64_decode data))
          = Some (concat (map (λ c, base64_decode c.2) sorted))) as Hfull.
  { rewrite <- (fill_assembles base64_decode N (map fst (pre ++ [(i, data, true)])) sorted)
      by done.
    by rewrite map_app, foldl_app. }
  assert (destination d2 = destination d) as Hdest2 by (by rewrite <- Hdest).
  destruct Hcases as [(e & Habs & _)|(a & b & Ha & Hb & Hrun)].
  { specialize (Habs _ eq_refl). congruence. }
  cbn [chunks d2 assign_chunk] in Ha. injection Ha as <-.
  rewrite Hfull in Hb. injection Hb as <-.
  cbn zeta in Hrun. cbn [redis_up disk_ok upd_downloads] in Hrun.
  rewrite Hup1, Hok1, Hdest2 in Hrun.
  destruct (disk_ok s); [destruct (redis_up s)|].
  - rewrite (run_is _ _ _ _ Hrun).
    cbn [disk fs_calls downloads upd_redis upd_downloads upd_disk upd_fs_calls].
    rewrite Hcalls. split; [done|].
    split; intros; by rewrite lookup_insert_eq.
  - rewrite (run_eq _ (handleError id "Redis connection lost") _ _)
      by (by rewrite Hrun).
    match goal with
    | |- context [run (handleError id ?e) ?s2] =>
        destruct (handleError_fields s2 id e _
                    (lookup_insert_eq (downloads (upd_downloads (<[id := d2]>) s1)) id _))
          as (_ & -> & -> & _)
    end.
    cbn [disk fs_calls upd_downloads upd_disk upd_fs_calls].
    rewrite Hcalls. split; [done|]. split; [|done].
    intros _. by rewrite lookup_insert_eq.
  - rewrite (run_eq _ (handleError id "EIO: write failed") _ _)
      by (by rewrite Hrun).
    match goal with
    | |- context [run (handleError id ?e) ?s2] =>
        destruct (handleError_fields s2 id e d2
                    (lookup_insert_eq (downloads s1) id d2))
          as (_ & _ & -> & _)
    end.
    cbn [fs_calls upd_downloads upd_fs_calls].
    rewrite Hcalls. split; [done|]. split; intros [=].
Qed.

End Coordinator.

(** The scenario of the specification: three chunks arrive in the order
    1, 0, 2, the last one flagged; the file holds chunk 0, chunk 1 and
    chunk 2 in that order. *)
Lemma assembly_in_index_order_witness :
  let s0 := run (Server.on_message 1 (Wire.register "site-1")) (accept 1 "" (boot 0)) in
  let s1 := run (Server.post_download (Some "site-1")) s0 in
  let s2 := run (Server.on_message 1 (Wire.file_metadata "transfer-0" "f.txt" 3 3)) s1 in
  let s3 := deliver 1 (map (chunk_frame "transfer-0")
                         ([(1, "Yg==", false); (0, "YQ==", false)] ++ [(2, "Yw==", true)])) s2 in
  disk s3 !! "/srv/downloads/site-1_f.txt" = Some [Byte.x61; Byte.x62; Byte.x63]
  ∧ status <$> downloads s3 !! "transfer-0" = Some completed.
Proof.
  intros s0 s1 s2 s3.
  destruct (assembly_in_index_order s2 1 "transfer-0"
              (assign_metadata "f.txt" 3 3
                 {| downloadId := "transfer-0"; clientId := "site-1";
                    status := initiated; startTime := 0; chunks := Some [];
                    progress := JS.of_Z 0; fileName := None; fileSize := None;
                    totalChunks := None; receivedChunks := None; endTime := None;
                    filePath := None; duration := None; error := None |})
              3 [(1, "Yg==", false); (0, "YQ==", false)] 2 "Yw=="
              [(0, "YQ=="); (1, "Yg=="); (2, "Yw==")])
    as (_ & Hfile & Hstatus).
  - vm_compute. reflexivity.
  - reflexivity.
  - reflexivity.
  - repeat constructor.
  - cbn. apply perm_swap.
  - reflexivity.
  - split; [apply Hfile | apply Hstatus]; reflexivity.
Defined.

(** C6 as stated fails: a transfer of one chunk whose index 0 arrives
    twice has [receivedChunks = 2] and [totalChunks = 1]. *)
Lemma repeated_index_is_counted_twice :
  let s0 := run (DownloadManager.initiateDownload "site-1") (boot 0) in
  let s1 := run (DownloadManager.initializeDownload "transfer-0" "f.txt" 1 1) s0 in
  let s2 := deliver 1 (map (chunk_frame "transfer-0") [(0, "YQ==", false); (0, "YQ==", false)]) s1 in
  (receivedChunks <$> downloads s2 !! "transfer-0") = Some (Some 2%Z)
  ∧ (totalChunks <$> downloads s2 !! "transfer-0") = Some (Some 1%Z)
  ∧ (1 < 2)%Z.
Proof. vm_compute. done. Qed.

Lemma received_counts_messages_witness :
  let s0 := run (DownloadManager.initiateDownload "site-1") (boot 0) in
  let s1 := run (DownloadManager.initializeDownload "transfer-0" "f.txt" 2 2) s0 in
  let s2 := deliver 1 (map (chunk_frame "transfer-0") [(1, "Yg==", false); (0, "YQ==", false)]) s1 in
  ∃ d', downloads s2 !! "transfer-0" = Some d' ∧ receivedChunks d' = Some 2%Z.
Proof.
  intros s0 s1 s2.
  destruct (received_counts_messages s1 1 "transfer-0"
              (assign_metadata "f.txt" 2 2
                 {| downloadId := "transfer-0"; clientId := "site-1";
                    status := initiated; startTime := 0; chunks := Some [];
                    progress := JS.of_Z 0; fileName := None; fileSize := None;
                    totalChunks := None; receivedChunks := None; endTime := None;
                    filePath := None; duration := None; error := None |})
              2 [(1, "Yg==", false); (0, "YQ==", false)])
    as (d' & r & Hd' & Er & _ & _ & _ & Hex).
  - vm_compute. reflexivity.
  - reflexivity.
  - reflexivity.
  - exists d'. split; [exact Hd'|]. rewrite Er. f_equal. apply Hex.
    + cbn. eauto.
    + repeat constructor.
Defined.

(** C2 as stated fails: a completed record goes back to [downloading]
    when a metadata message for it arrives, and to [failed] on an error
    message. *)
Lemma completed_record_is_reopened :
  let s0 := run (DownloadManager.initiateDownload "site-1") (boot 0) in
  let s1 := run (perform (onMetadata "f.txt" 1 1) "transfer-0") s0 in
  let s2 := run (perform (onChunk 0 "YQ==" true) "transfer-0") s1 in
  (status <$> downloads s2 !! "transfer-0") = Some completed
  ∧ (status <$> downloads (run (perform (onMetadata "f.txt" 1 1) "transfer-0") s2)
                !! "transfer-0") = Some downloading
  ∧ (status <$> downloads (run (perform (fail "late") "transfer-0") s2)
                !! "transfer-0") = Some failed.
Proof. vm_compute. done. Qed.

Lemma status_after_operation_witness :
  let s0 := run (DownloadManager.initiateDownload "site-1") (boot 0) in
  ∃ d', downloads (run (perform (onMetadata "f.txt" 1 1) "transfer-0") s0)
          !! "transfer-0" = Some d'
    ∧ status d' = downloading.
Proof.
  intros s0.
  destruct (status_after_operation s0 (onMetadata "f.txt" 1 1) "transfer-0"
              {| downloadId := "transfer-0"; clientId := "site-1";
                 status := initiated; startTime := 0; chunks := Some [];
                 progress := JS.of_Z 0; fileName := None; fileSize := None;
                 totalChunks := None; receivedChunks := None; endTime := None;
                 filePath := None; duration := None; error := None |})
    as (d' & Hd' & _ & _ & Hst & _).
  - vm_compute. reflexivity.
  - exists d'. split; [exact Hd' | exact Hst].
Defined.

(** C4 as stated fails: with two chunks of three received the progress is
    67, where the floor of 66.66 is 66. *)
Lemma progress_two_of_three_is_67 :
  let s0 := run (DownloadManager.initiateDownload "site-1") (boot 0) in
  let s1 := run (DownloadManager.initializeDownload "transfer-0" "f.txt" 3 3) s0 in
  let s2 := run (DownloadManager.handleChunk "transfer-0" 0 "YQ==" false) s1 in
  let s3 := run (DownloadManager.handleChunk "transfer-0" 1 "Yg==" false) s2 in
  (receivedChunks <$> downloads s3 !! "transfer-0") = Some (Some 2%Z)
  ∧ (progress <$> downloads s3 !! "transfer-0") = Some (JS.of_Z 67)
  ∧ floor_percentage 2 (Some 3%Z) = JS.of_Z 66
  ∧ JS.of_Z 67 ≠ JS.of_Z 66.
Proof. vm_compute. repeat split; discriminate. Qed.

Lemma chunk_sets_rounded_progress_witness :
  let s0 := run (DownloadManager.initiateDownload "site-1") (boot 0) in
  let s1 := run (DownloadManager.initializeDownload "transfer-0" "f.txt" 3 3) s0 in
  ∃ d', downloads (run (DownloadManager.handleChunk "transfer-0" 0 "YQ==" false) s1)
          !! "transfer-0" = Some d'
    ∧ receivedChunks d' = Some 1%Z
    ∧ progress d' = JS.of_Z 33.
Proof.
  intros s0 s1.
  destruct (chunk_sets_rounded_progress s1 "transfer-0" 0 "YQ==" false
              (assign_metadata "f.txt" 3 3
                 {| downloadId := "transfer-0"; clientId := "site-1";
                    status := initiated; startTime := 0; chunks := Some [];
                    progress := JS.of_Z 0; fileName := None; fileSize := None;
                    totalChunks := None; receivedChunks := None; endTime := None;
                    filePath := None; duration := None; error := None |}))
    as (d' & Hd' & Hr & Hp).
  - vm_compute. reflexivity.
  - vm_compute. eauto.
  - exists d'. split; [exact Hd'|]. split; [exact Hr|].
    rewrite Hp. vm_compute. reflexivity.
Defined.

(** * Further properties of the code *)

(** ** The session registry: round trip, framing, failures, listing *)

Section RegistryMore.
Import ConnectionManager.

Lemma getClientConnection_run (s : state) (c : string) :
  getClientConnection c s = (Return (connections s !! c), s).
Proof. done. Qed.

Lemma isClientConnected_result (s : state) (c : string) :
  redis_up s = true →
  result (isClientConnected c) s
  = Return (bool_decide (is_Some (connections s !! c))
            && bool_decide (is_Some (Redis.hash "connected_clients" (redis s) !! c))).
Proof.
  intros Hup. unfold result. rewrite isClientConnected_run, Hup. cbn [fst].
  do 2 f_equal. unfold Redis.hexists. by case_decide; case_bool_decide.
Qed.

(** X1. Register, look up, unregister. With the remote store reachable,
    an identity is connected and resolves to its handle right after
    [registerClient]; right after [unregisterClient] it is not connected,
    resolves to nothing, and its hash field and its expiring key are gone. *)
Theorem register_lookup_unregister (s : state) (c : string) (ws : handle) :
  redis_up s = true →
  let s1 := run (registerClient c ws) s in
  let s2 := run (unregisterClient c) s1 in
  result (isClientConnected c) s1 = Return true
  ∧ result (getClientConnection c) s1 = Return (Some ws)
  ∧ Redis.exists_at (liveness_key c) (clock s1) (redis s1) = true
  ∧ result (isClientConnected c) s2 = Return false
  ∧ result (getClientConnection c) s2 = Return None
  ∧ Redis.hash "connected_clients" (redis s2) !! c = None
  ∧ Redis.exists_at (liveness_key c) (clock s2) (redis s2) = false.
Proof.
  intros Hup s1 s2.
  destruct (registerClient_env s c ws) as [Hup1 Hclock1]. fold s1 in Hup1, Hclock1.
  assert (redis_up s1 = true) as Hup1' by congruence.
  assert (redis_up s2 = true) as Hup2.
  { unfold s2. by rewrite (proj1 (unregisterClient_rest _ _)). }
  assert (Redis.hash "connected_clients" (redis s2) !! c = None) as Hhash.
  { unfold s2. rewrite unregisterClient_redis by done.
    by rewrite hash_del, hash_hdel, lookup_delete_eq. }
  split.
  { rewrite isClientConnected_result by done. unfold s1.
    rewrite registerClient_connections, registerClient_redis by done.
    rewrite hash_set_ex, hash_hset, !lookup_insert_eq.
    by rewrite !bool_decide_eq_true_2 by eauto. }
  split.
  { unfold result. rewrite getClientConnection_run. cbn [fst]. unfold s1.
    by rewrite registerClient_connections, lookup_insert_eq. }
  split.
  { unfold s1 at 2. rewrite registerClient_redis by done.
    unfold Redis.exists_at. rewrite keys_set_ex, lookup_insert_eq, Hclock1.
    apply Z.ltb_lt. lia. }
  split.
  { rewrite isClientConnected_result by done. rewrite Hhash.
    rewrite (bool_decide_eq_false_2 (is_Some None)) by (by intros [? ?]).
    by rewrite andb_false_r. }
  split.
  { unfold result. rewrite getClientConnection_run. cbn [fst]. unfold s2.
    by rewrite unregisterClient_connections, lookup_delete_eq. }
  split; [done|].
  unfold s2 at 2. rewrite unregisterClient_redis by done.
  unfold Redis.exists_at. by rewrite keys_del, lookup_delete_eq.
Qed.

Lemma register_lookup_unregister_witness :
  let s1 := run (registerClient "site-1" 4) (boot 10) in
  result (isClientConnected "site-1") s1 = Return true
  ∧ result (isClientConnected "site-1") (run (unregisterClient "site-1") s1)
    = Return false.
Proof.
  intros s1.
  destruct (register_lookup_unregister (boot 10) "site-1" 4)
    as (H1 & _ & _ & H4 & _); [reflexivity|].
  split; [exact H1 | exact H4].
Defined.

(** X2. Registering or unregistering one identity does not change what
    the registry answers for another one, whether or not the remote store
    is reachable. *)
Theorem registry_frame (s : state) (c c' : string) (ws : handle) :
  c ≠ c' →
  let s1 := run (registerClient c ws) s in
  let s2 := run (unregisterClient c) s in
  isClientConnected c' s1 = (result (isClientConnected c') s, s1)
  ∧ result (getClientConnection c') s1 = result (getClientConnection c') s
  ∧ isClientConnected c' s2 = (result (isClientConnected c') s, s2)
  ∧ result (getClientConnection c') s2 = result (getClientConnection c') s.
Proof.
  intros Hne s1 s2. unfold result.
  rewrite !getClientConnection_run, !isClientConnected_run. cbn [fst].
  destruct (registerClient_env s c ws) as [Hup1 _]. fold s1 in Hup1.
  pose proof (proj1 (unregisterClient_rest s c)) as Hup2. fold s2 in Hup2.
  rewrite Hup1, Hup2.
  assert (connections s1 !! c' = connections s !! c') as ->.
  { unfold s1. by rewrite registerClient_connections, lookup_insert_ne. }
  assert (connections s2 !! c' = connections s !! c') as ->.
  { unfold s2. by rewrite unregisterClient_connections, lookup_delete_ne. }
  destruct (redis_up s) eqn:Hup; [|done].
  assert (Redis.hexists "connected_clients" c' (redis s1)
          = Redis.hexists "connected_clients" c' (redis s)) as ->.
  { unfold s1, Redis.hexists. rewrite registerClient_redis by done.
    by rewrite hash_set_ex, hash_hset, lookup_insert_ne. }
  assert (Redis.hexists "connected_clients" c' (redis s2)
          = Redis.hexists "connected_clients" c' (redis s)) as ->.
  { unfold s2, Redis.hexists. rewrite unregisterClient_redis by done.
    by rewrite hash_del, hash_hdel, lookup_delete_ne. }
  done.
Qed.

Lemma registry_frame_witness :
  result (isClientConnected "site-2") (run (registerClient "site-1" 4) (boot 10))
  = result (isClientConnected "site-2") (boot 10).
Proof.
  destruct (registry_frame (boot 10) "site-1" "site-2" 4) as (H1 & _);
    [discriminate|].
  unfold result at 1. by rewrite H1.
Defined.



End RegistryMore.

(** ** Listing the connected agents *)

Section Listing.
Variable toISOString : string → option string.
Import Snapshot.

Lemma hgetall_None (h : string) (r : Redis.store) :
  hgetall h r = None ↔ Redis.hash h r = ∅.
Proof. unfold hgetall. case_decide; split; intros; done. Qed.

(** X4. [getConnectedClients] reads the remote hash only. With the store
    reachable and every stored timestamp a valid date, it returns one entry
    per field of [connected_clients]: an identity is listed exactly when
    the hash has a field for it, with the ISO form of that timestamp, and
    the list is empty exactly when the hash has no field. The local map is
    not consulted and nothing is changed. *)
Theorem listing_reflects_remote_hash (s : state) :
  redis_up s = true →
  (∀ c ts, Redis.hash "connected_clients" (redis s) !! c = Some ts →
           is_Some (toISOString ts)) →
  ∃ l, getConnectedClients toISOString s = (Return l, s)
    ∧ length l = size (Redis.hash "connected_clients" (redis s))
    ∧ (∀ c iso, {| entry_clientId := c; connectedAt := iso |} ∈ l
         ↔ ∃ ts, Redis.hash "connected_clients" (redis s) !! c = Some ts
                 ∧ toISOString ts = Some iso).
Proof.
  intros Hup Hvalid. unfold getConnectedClients. monad_simpl. rewrite Hup.
  rewrite upd_redis_id.
  set (fields := Redis.hash "connected_clients" (redis s)) in *.
  destruct (hgetall "connected_clients" (redis s)) as [m|] eqn:Hget.
  - assert (m = fields) as ->.
    { unfold hgetall in Hget. fold fields in Hget. by case_decide; simplify_eq. }
    destruct (mapM _ (map_to_list fields)) as [l|] eqn:Hl.
    + exists l. split; [done|]. apply mapM_Some in Hl.
      split.
      { rewrite <- (Forall2_length _ _ _ Hl). apply length_map_to_list. }
      intros c iso. split.
      * intros Hin. apply list_elem_of_lookup in Hin as [i Hi].
        destruct (Forall2_lookup_r _ _ _ _ _ Hl Hi) as ([c' ts] & Hkv & Hf).
        cbn in Hf. destruct (toISOString ts) as [iso'|] eqn:Hts; [|done].
        cbn in Hf. injection Hf as -> ->.
        exists ts. split; [|done].
        apply elem_of_map_to_list. by eapply list_elem_of_lookup_2.
      * intros (ts & Hc & Hts). apply elem_of_map_to_list in Hc.
        apply list_elem_of_lookup in Hc as [i Hi].
        destruct (Forall2_lookup_l _ _ _ _ _ Hl Hi) as (e & He & Hf).
        cbn in Hf. rewrite Hts in Hf. cbn in Hf. injection Hf as <-.
        by eapply list_elem_of_lookup_2.
    + exfalso. apply mapM_None in Hl. apply Exists_exists in Hl as ([c ts] & Hin & Hf).
      apply elem_of_map_to_list in Hin. destruct (Hvalid c ts Hin) as [iso Hiso].
      cbn in Hf. by rewrite Hiso in Hf.
  - apply hgetall_None in Hget. fold fields in Hget. rewrite Hget.
    exists []. split; [done|]. split; [by rewrite map_size_empty|].
    intros c iso. split; [by intros Hin%elem_of_nil|].
    intros (ts & Hc & _). by rewrite lookup_empty in Hc.
Qed.

End Listing.

(** An identity mirrored by another replica is listed although this
    process holds no handle for it, and the trigger answers 404. *)
Lemma listing_reflects_remote_hash_witness :
  let s := upd_redis (Redis.hset "connected_clients" "site-7" "1700000000000") (boot 0) in
  ∃ l, Snapshot.getConnectedClients (λ ts, Some ("at " +:+ ts)) s = (Return l, s)
    ∧ length l = 1
    ∧ {| Snapshot.entry_clientId := "site-7";
         Snapshot.connectedAt := "at 1700000000000" |} ∈ l
    ∧ result (ConnectionManager.isClientConnected "site-7") s = Return false.
Proof.
  intros s.
  destruct (listing_reflects_remote_hash (λ ts, Some ("at " +:+ ts)) s)
    as (l & Hrun & Hlen & Hin).
  - reflexivity.
  - intros c ts _. by eexists.
  - exists l. split; [exact Hrun|].
    split; [rewrite Hlen; vm_compute; reflexivity|].
    split; [|reflexivity].
    apply Hin. exists "1700000000000". split; vm_compute; reflexivity.
Defined.

(** ** The handlers: what a close removes, identity checks, the trigger *)

Section HandlerMore.
Context `{Platform}.
Import ConnectionManager.

Lemma unregisterClient_redis_down (s : state) (c : string) :
  redis_up s = false → redis (run (unregisterClient c) s) = redis s.
Proof. intros Hup. unfold unregisterClient. monad_simpl. by rewrite Hup. Qed.

(** X5. The close handler touches the registry entry of the identity bound
    to its own tunnel and no other: every other identity keeps its handle
    and its hash field. A tunnel that never registered, or registered the
    empty identity, leaves the registry as it is. *)
Theorem close_touches_only_bound (s : state) (ws : handle) :
  let s' := run (Server.on_close ws) s in
  (∀ c, sockets s !! ws ≫= bound_clientId ≠ Some c →
        connections s' !! c = connections s !! c
        ∧ Redis.hash "connected_clients" (redis s') !! c
          = Redis.hash "connected_clients" (redis s) !! c)
  ∧ (JS.truthy (sockets s !! ws ≫= bound_clientId) = false →
     connections s' = connections s ∧ redis s' = redis s).
Proof.
  intros s'. subst s'. unfold run at 1 2 3 4. rewrite close_run. cbn zeta.
  destruct (sockets s !! ws ≫= bound_clientId) as [b|] eqn:Hb.
  2:{ by split. }
  destruct (negb (b =? "")) eqn:Hempty.
  - split; [|intros Ht; cbn in Ht; congruence].
    intros c Hc. assert (b ≠ c) as Hne by congruence.
    change ((unregisterClient b (upd_sockets (alter closed ws) s)).2)
      with (run (unregisterClient b) (upd_sockets (alter closed ws) s)).
    rewrite unregisterClient_connections. cbn [connections upd_sockets].
    split; [by rewrite lookup_delete_ne|].
    destruct (redis_up s) eqn:Hup.
    + rewrite unregisterClient_redis by done. cbn [redis upd_sockets].
      by rewrite hash_del, hash_hdel, lookup_delete_ne.
    + by rewrite unregisterClient_redis_down.
  - by split.
Qed.

(** X6. Under mutual authentication the claimed identity is stored in the
    handler's variable before it is checked. So when a rejected tunnel
    closes, the session that another tunnel holds for the claimed identity
    is unregistered: its handle is removed from the local map and, the
    store being reachable, its remote entries are deleted. *)
Theorem mismatch_evicts_claimed (s : state) (ws h : handle) (k : socket)
    (claimed : string) :
  sockets s !! ws = Some k → claimed ≠ peer_CN k → claimed ≠ "" →
  connections s !! claimed = Some h →
  let s1 := run (ServerMtls.on_message ws (Wire.register claimed)) s in
  let s2 := run (ServerMtls.on_close ws) s1 in
  connections s1 !! claimed = Some h
  ∧ connections s2 !! claimed = None
  ∧ (redis_up s = true →
     Redis.hash "connected_clients" (redis s2) !! claimed = None
     ∧ result (isClientConnected claimed) s2 = Return false).
Proof.
  intros Hk Hne Hnonempty Hh s1 s2.
  assert (s1 = upd_sockets (<[ws := start_closing (record_sent
            (Wire.error_notice "ClientId does not match certificate CN")
            (assign_bound claimed k))]>) s) as Hs1.
  { unfold s1, run. by rewrite (mismatch_run s ws k claimed). }
  assert (s2 = run (unregisterClient claimed) (upd_sockets (alter closed ws) s1)) as Hs2.
  { unfold s2, run. rewrite mtls_close_is_close, close_run. cbn zeta.
    rewrite Hs1 at 1. cbn [sockets upd_sockets]. rewrite lookup_insert_eq.
    cbn [mbind option_bind bound_clientId start_closing record_sent assign_bound].
    by rewrite (proj2 (String.eqb_neq claimed "")). }
  split; [by rewrite Hs1|].
  split; [by rewrite Hs2, unregisterClient_connections, lookup_delete_eq|].
  intros Hup.
  assert (redis_up (upd_sockets (alter closed ws) s1) = true) as Hup1
    by (by rewrite Hs1).
  assert (Redis.hash "connected_clients" (redis s2) !! claimed = None) as Hhash.
  { rewrite Hs2, unregisterClient_redis by done.
    by rewrite hash_del, hash_hdel, lookup_delete_eq. }
  split; [done|].
  rewrite isClientConnected_result; [|by rewrite Hs2, (proj1 (unregisterClient_rest _ _))].
  rewrite Hhash. rewrite (bool_decide_eq_false_2 (is_Some None)) by (by intros [? ?]).
  by rewrite andb_false_r.
Qed.

(** X7. Under mutual authentication a registration whose claim equals the
    certificate subject is accepted: the handle is stored, the
    acknowledgment reports a secure, mutually authenticated channel, the
    tunnel stays as it was and, the store being reachable, the identity is
    connected. *)
Theorem matching_registration (s : state) (ws : handle) (k : socket) :
  sockets s !! ws = Some k → redis_up s = true →
  let s1 := run (ServerMtls.on_message ws (Wire.register (peer_CN k))) s in
  connections s1 !! peer_CN k = Some ws
  ∧ sockets s1 !! ws
    = Some (record_sent
              (Wire.registered (peer_CN k) "Successfully registered with mTLS" true true)
              (assign_bound (peer_CN k) k))
  ∧ result (isClientConnected (peer_CN k)) s1 = Return true.
Proof.
  intros Hk Hup s1.
  assert (connections s1 = <[peer_CN k := ws]> (connections s)
          ∧ redis s1 = Redis.set_ex (liveness_key (peer_CN k)) "connected" 300 (clock s)
                         (Redis.hset "connected_clients" (peer_CN k)
                            (pretty (clock s)) (redis s))
          ∧ redis_up s1 = true
          ∧ sockets s1 = alter (record_sent (Wire.registered (peer_CN k)
                                  "Successfully registered with mTLS" true true)) ws
                           (alter (assign_bound (peer_CN k)) ws (sockets s)))
    as (Hc & Hr & Hup1 & Hs).
  { unfold s1, ServerMtls.on_message, ServerMtls.clientIdFromCert, registerClient.
    monad_simpl. rewrite lookup_alter_eq, Hk. cbn [fmap option_fmap option_map].
    rewrite bool_decide_eq_false_2 by (intros Hx; by apply Hx).
    simpl. by repeat (rewrite ?Hup; simpl). }
  split; [by rewrite Hc, lookup_insert_eq|].
  split; [by rewrite Hs, !lookup_alter_eq, Hk|].
  rewrite isClientConnected_result by done.
  rewrite Hc, Hr, hash_set_ex, hash_hset, !lookup_insert_eq.
  by rewrite !bool_decide_eq_true_2 by eauto.
Qed.

(** The record created by [initiateDownload]. *)
Lemma initiateDownload_run (s : state) (c : string) :
  let id := uuidv4 (drawn s) in
  let fresh :=
    {| downloadId := id; clientId := c; status := initiated;
       startTime := clock s; chunks := Some []; progress := JS.of_Z 0;
       fileName := None; fileSize := None; totalChunks := None;
       receivedChunks := None; endTime := None; filePath := None;
       duration := None; error := None |} in
  let s1 := upd_downloads (<[id := fresh]>) (upd_drawn S s) in
  DownloadManager.initiateDownload c s =
    if redis_up s
    then (Return id, upd_redis (λ _, Redis.hmset (DownloadManager.key id)
            [("clientId", c); ("status", "initiated"); ("startTime", pretty (clock s))]
            (redis s)) s1)
    else (Throw "Redis connection lost", s1).
Proof.
  cbn zeta. unfold DownloadManager.initiateDownload. monad_simpl. by case_store s.
Qed.

(** The trigger on its success path. *)
Lemma post_download_connected (s : state) (c : string) (ws : handle) :
  c ≠ "" → result (isClientConnected c) s = Return true →
  connections s !! c = Some ws →
  redis_up s = true
  ∧ Server.post_download (Some c) s
    = (Return (initiated_response (uuidv4 (drawn s)) "Download initiated"),
       upd_sockets (alter (record_sent
           (Wire.download_request (uuidv4 (drawn s)) "/data/sample-file.txt")) ws)
         (DownloadManager.initiateDownload c s).2).
Proof.
  intros Hc Htrue Hws.
  assert (redis_up s = true) as Hup.
  { unfold result in Htrue. rewrite isClientConnected_run in Htrue.
    by destruct (redis_up s). }
  split; [done|].
  assert (isClientConnected c s = (Return true, s)) as Hconn.
  { rewrite isClientConnected_run, Hup. unfold result in Htrue.
    rewrite isClientConnected_run, Hup in Htrue. cbn [fst] in Htrue.
    by injection Htrue as ->. }
  pose proof (initiateDownload_run s c) as Hinit. cbn zeta in Hinit.
  rewrite Hup in Hinit.
  unfold Server.post_download, try_catch. rewrite truthy_Some by done.
  cbn [negb]. change (default "" (Some c)) with c.
  unfold mbind at 1. unfold M_bind at 1. rewrite Hconn. cbn [negb].
  unfold mbind at 1. unfold M_bind at 1. rewrite Hinit.
  unfold ConnectionManager.getClientConnection. monad_simpl.
  by rewrite Hws.
Qed.

(** X8. The trigger for a connected identity. The answer is 200 with the
    identifier just drawn; a record in status [initiated] for that identity
    is stored under it, with no chunk and progress 0; the work request
    naming that identifier is sent on the tunnel registered for the
    identity; no other record changes. *)
Theorem trigger_for_connected (s : state) (c : string) (ws : handle) :
  c ≠ "" → result (isClientConnected c) s = Return true →
  connections s !! c = Some ws →
  let id := uuidv4 (drawn s) in
  let s' := run (Server.post_download (Some c)) s in
  result (Server.post_download (Some c)) s
  = Return (initiated_response id "Download initiated")
  ∧ (∃ d, downloads s' !! id = Some d
       ∧ status d = initiated ∧ clientId d = c ∧ downloadId d = id
       ∧ chunks d = Some [] ∧ progress d = JS.of_Z 0 ∧ startTime d = clock s)
  ∧ sockets s' !! ws
    = record_sent (Wire.download_request id "/data/sample-file.txt") <$> sockets s !! ws
  ∧ drawn s' = S (drawn s)
  ∧ (∀ j, j ≠ id → downloads s' !! j = downloads s !! j).
Proof.
  intros Hc Htrue Hws. cbn zeta.
  destruct (post_download_connected s c ws Hc Htrue Hws) as [Hup Hrun].
  pose proof (initiateDownload_run s c) as Hinit. cbn zeta in Hinit.
  rewrite Hup in Hinit.
  unfold result. rewrite (run_is _ _ _ _ Hrun), Hrun, Hinit.
  cbn [fst snd downloads sockets drawn upd_sockets upd_redis upd_downloads upd_drawn].
  split; [done|]. split.
  { eexists. split; [apply lookup_insert_eq|]. done. }
  split; [by rewrite lookup_alter_eq|]. split; [done|].
  intros j Hj. by rewrite lookup_insert_ne.
Qed.


Lemma initializeDownload_unknown (s : state) (id name : string) (size total : Z) :
  downloads s !! id = None →
  DownloadManager.initializeDownload id name size total s = (Return (), s).
Proof.
  intros Hd. unfold DownloadManager.initializeDownload. monad_simpl. by rewrite Hd.
Qed.

(** X10. Frames that are dropped. A frame that does not parse, a frame of
    an unknown type, and a metadata, chunk or error frame that names a
    transfer the coordinator does not know all leave the whole state as it
    is; the tunnel stays open and nothing is sent back. *)
Theorem dropped_frames (s : state) (ws : handle) (frame : Wire.from_agent) :
  match frame with
  | Wire.malformed | Wire.unknown _ => True
  | Wire.file_metadata id _ _ _ | Wire.file_chunk id _ _ _ | Wire.error id _ =>
      downloads s !! id = None
  | Wire.register _ => False
  end →
  Server.on_message ws frame s = (Return (), s).
Proof.
  destruct frame as [c|id name size total|id i data isLast|id message|t|];
    intros Hframe; unfold Server.on_message, try_catch.
  - done.
  - by rewrite initializeDownload_unknown.
  - by rewrite handleChunk_unknown.
  - by rewrite handleError_unknown.
  - done.
  - done.
Qed.


End HandlerMore.

Lemma close_touches_only_bound_witness :
  let s0 := accept 2 "" (accept 1 "" (boot 0)) in
  let s1 := run (Server.on_message 1 (Wire.register "site-1")) s0 in
  connections (run (Server.on_close 2) s1) = connections s1
  ∧ connections (run (Server.on_close 2) s1) !! "site-1" = Some 1.
Proof.
  intros s0 s1.
  destruct (close_touches_only_bound s1 2) as [_ Hnone].
  destruct Hnone as [Hc _]; [reflexivity|].
  split; [exact Hc|]. rewrite Hc. reflexivity.
Defined.

Lemma mismatch_evicts_claimed_witness :
  let s0 := accept 2 "site-2" (accept 1 "site-3" (boot 0)) in
  let s := run (ServerMtls.on_message 1 (Wire.register "site-3")) s0 in
  let s1 := run (ServerMtls.on_message 2 (Wire.register "site-3")) s in
  let s2 := run (ServerMtls.on_close 2) s1 in
  result (ConnectionManager.isClientConnected "site-3") s = Return true
  ∧ connections s2 !! "site-3" = None
  ∧ result (ConnectionManager.isClientConnected "site-3") s2 = Return false.
Proof.
  intros s0 s s1 s2.
  destruct (mismatch_evicts_claimed s 2 1
              {| peer_CN := "site-2"; bound_clientId := None;
                 readyState := OPEN; sent := [] |} "site-3")
    as (_ & H2 & H3).
  - reflexivity.
  - discriminate.
  - discriminate.
  - vm_compute. reflexivity.
  - split; [vm_compute; reflexivity|]. split; [exact H2|].
    apply H3. reflexivity.
Defined.

Lemma matching_registration_witness :
  let s1 := run (ServerMtls.on_message 1 (Wire.register "site-2"))
              (accept 1 "site-2" (boot 0)) in
  connections s1 !! "site-2" = Some 1
  ∧ result (ConnectionManager.isClientConnected "site-2") s1 = Return true.
Proof.
  intros s1.
  destruct (matching_registration (accept 1 "site-2" (boot 0)) 1
              {| peer_CN := "site-2"; bound_clientId := None;
                 readyState := OPEN; sent := [] |})
    as (H1 & _ & H3); [reflexivity | reflexivity |].
  split; [exact H1 | exact H3].
Defined.

Lemma trigger_for_connected_witness :
  let s := run (Server.on_message 1 (Wire.register "site-1")) (accept 1 "" (boot 0)) in
  result (Server.post_download (Some "site-1")) s
  = Return (initiated_response "transfer-0" "Download initiated")
  ∧ sent <$> sockets (run (Server.post_download (Some "site-1")) s) !! 1
    = Some [Wire.registered "site-1" "Successfully registered" false false;
            Wire.download_request "transfer-0" "/data/sample-file.txt"].
Proof.
  intros s.
  destruct (trigger_for_connected s "site-1" 1) as (H1 & _ & H3 & _).
  - discriminate.
  - vm_compute. reflexivity.
  - vm_compute. reflexivity.
  - split; [exact H1|].
    etransitivity; [exact (f_equal (fmap sent) H3)|]. vm_compute. reflexivity.
Defined.


Lemma dropped_frames_witness :
  Server.on_message 1 (Wire.file_chunk "nobody" 0 "YQ==" true) (accept 1 "" (boot 0))
  = (Return (), accept 1 "" (boot 0)).
Proof. apply dropped_frames. reflexivity. Defined.

(** ** The transfer coordinator: failure paths of a completion *)

Section CoordinatorMore.
Context `{Platform}.
Import DownloadManager.

#[local] Arguments pretty : simpl never.
#[local] Arguments JS.array_set : simpl never.
#[local] Arguments percentage : simpl never.
#[local] Arguments JS.incr : simpl never.
#[local] Arguments destination : simpl never.
#[local] Arguments key : simpl never.



Lemma completeDownload_deleted (s : state) (id : string) (d : download) :
  downloads s !! id = Some d → chunks d = None →
  completeDownload id s
  = handleError id "The list argument must be an instance of Array" s.
Proof.
  intros Hd Ha. unfold completeDownload, concat_chunks. monad_simpl.
  rewrite Hd. simpl. rewrite Ha. simpl. unfold handleError. by monad_simpl.
Qed.


(** X12. A completion whose write fails. [fs.writeFile] is called with
    the assembled data and throws; the record is marked [failed] with a
    reason and an end time; the disk is unchanged; the chunk buffers are
    not discarded and no output path is recorded. *)
Theorem failed_write_marks_failed (s : state) (id : string) (d : download)
    (a : JS.array) (b : JS.bytes) :
  downloads s !! id = Some d → chunks d = Some a →
  JS.Buffer_concat a = Some b → disk_ok s = false →
  let s' := run (completeDownload id) s in
  ∃ d', downloads s' !! id = Some d'
    ∧ status d' = failed ∧ is_Some (error d') ∧ endTime d' = Some (clock s)
    ∧ chunks d' = Some a ∧ filePath d' = filePath d
    ∧ disk s' = disk s
    ∧ fs_calls s' = fs_calls s ++ [(destination d, b)].
Proof.
  intros Hd Ha Hb Hok. cbn zeta.
  destruct (completeDownload_run s id d Hd) as [(e & Habs & _)|(a' & b' & Ha' & Hb' & Hrun)].
  { specialize (Habs a Ha). congruence. }
  rewrite Ha in Ha'. injection Ha' as <-. rewrite Hb in Hb'. injection Hb' as <-.
  cbn zeta in Hrun. rewrite Hok in Hrun.
  rewrite (run_eq _ (handleError id "EIO: write failed") s _) by (by rewrite Hrun).
  match goal with
  | |- context [run (handleError id ?e) ?s1] =>
      destruct (handleError_fields s1 id e d Hd) as (-> & -> & -> & _)
  end.
  cbn [downloads disk fs_calls clock upd_fs_calls].
  eexists. split; [apply lookup_insert_eq|]. cbn. by repeat split; eauto.
Qed.


End CoordinatorMore.


Lemma failed_write_marks_failed_witness :
  let s0 := run (DownloadManager.initiateDownload "site-1") (boot 0) in
  let s1 := run (DownloadManager.handleChunk "transfer-0" 0 "YQ==" false) s0 in
  let s2 := run (DownloadManager.completeDownload "transfer-0") (set_disk_ok false s1) in
  status <$> downloads s2 !! "transfer-0" = Some failed
  ∧ disk s2 = ∅ ∧ length (fs_calls s2) = 1.
Proof.
  intros s0 s1 s2.
  destruct (failed_write_marks_failed (set_disk_ok false s1) "transfer-0"
              (assign_chunk [Some [Byte.x61]] 1 JS.NaN
                 {| downloadId := "transfer-0"; clientId := "site-1";
                    status := initiated; startTime := 0; chunks := Some [];
                    progress := JS.of_Z 0; fileName := None; fileSize := None;
                    totalChunks := None; receivedChunks := None; endTime := None;
                    filePath := None; duration := None; error := None |})
              [Some [Byte.x61]] [Byte.x61])
    as (d' & Hd' & Hst & _ & _ & _ & _ & Hdisk & Hcalls).
  - vm_compute. reflexivity.
  - reflexivity.
  - reflexivity.
  - reflexivity.
  - split; [unfold s2; by rewrite Hd', <- Hst|]. split; [exact Hdisk|].
    unfold s2. rewrite Hcalls. reflexivity.
Defined.


(** ** Invariants of the coordinator over every history *)

Section Invariants.
Context `{Platform}.
Import DownloadManager.

#[local] Arguments pretty : simpl never.
#[local] Arguments JS.array_set : simpl never.
#[local] Arguments percentage : simpl never.
#[local] Arguments JS.incr : simpl never.
#[local] Arguments destination : simpl never.
#[local] Arguments key : simpl never.

(** What a completion leaves behind, whatever its outcome. *)
Lemma completeDownload_effect (s : state) (id : string) (d : download) :
  downloads s !! id = Some d →
  let s' := run (completeDownload id) s in
  ∃ d', downloads s' = <[id := d']> (downloads s)
    ∧ downloadId d' = downloadId d ∧ clientId d' = clientId d
    ∧ startTime d' = startTime d
    ∧ settled s' d'
    ∧ drawn s' = drawn s
    ∧ (∀ p, is_Some (disk s !! p) → is_Some (disk s' !! p)).
Proof.
  intros Hd. cbn zeta.
  destruct (completeDownload_run s id d Hd) as [(e & _ & Hrun)|(a & b & Ha & Hb & Hrun)].
  - rewrite (run_eq _ (handleError id e) s s) by (by rewrite Hrun).
    unfold run. rewrite (handleError_run s id e d Hd). cbn zeta.
    destruct (redis_up s); cbn; eexists; (split; [done|]); by repeat split.
  - cbn zeta in Hrun. destruct (disk_ok s); [destruct (redis_up s) eqn:Hup|].
    + rewrite (run_is _ _ _ _ Hrun).
      cbn [downloads disk drawn upd_redis upd_downloads upd_disk upd_fs_calls].
      eexists. split; [done|]. repeat split; try done.
      * eexists. split; [done|].
        cbn [disk upd_redis upd_downloads upd_disk upd_fs_calls].
        by rewrite lookup_insert_eq.
      * intros p Hp. destruct (decide (destination d = p)) as [<-|Hne].
        -- by rewrite lookup_insert_eq.
        -- by rewrite lookup_insert_ne.
    + rewrite (run_eq _ (handleError id "Redis connection lost") s _)
        by (by rewrite Hrun).
      unfold run.
      match goal with
      | |- context [handleError id ?e ?s1] =>
          rewrite (handleError_run s1 id e _ (lookup_insert_eq (downloads s) id _))
      end.
      cbn zeta. cbn [redis_up upd_downloads upd_disk upd_fs_calls]. rewrite Hup.
      cbn [snd downloads disk drawn upd_downloads upd_disk upd_fs_calls].
      eexists. split; [by rewrite insert_insert_eq|]. repeat split; try done.
      intros p Hp. destruct (decide (destination d = p)) as [<-|Hne].
      * by rewrite lookup_insert_eq.
      * by rewrite lookup_insert_ne.
    + rewrite (run_eq _ (handleError id "EIO: write failed") s _)
        by (by rewrite Hrun).
      unfold run.
      match goal with
      | |- context [handleError id ?e ?s1] => rewrite (handleError_run s1 id e d Hd)
      end.
      cbn zeta. cbn [redis_up upd_fs_calls].
      destruct (redis_up s); cbn; eexists; (split; [done|]); by repeat split.
Qed.

(** What one operation on a known transfer leaves behind. *)
Lemma perform_effect (s : state) (op : operation) (id : string) (d : download) :
  downloads s !! id = Some d → settled s d →
  let s' := run (perform op id) s in
  ∃ d', downloads s' = <[id := d']> (downloads s)
    ∧ downloadId d' = downloadId d ∧ clientId d' = clientId d
    ∧ startTime d' = startTime d
    ∧ settled s' d'
    ∧ drawn s' = drawn s
    ∧ (∀ p, is_Some (disk s !! p) → is_Some (disk s' !! p)).
Proof.
  intros Hd Hset. cbn zeta.
  destruct op as [name size total|i data isLast| |reason]; cbn [perform].
  - unfold run, initializeDownload. monad_simpl. rewrite Hd. simpl.
    case_store s; eexists; (split; [done|]); by repeat split.
  - destruct (chunks d) as [a|] eqn:Ha.
    + assert (status d ≠ completed) as Hst.
      { intros Hc. destruct (Hset Hc) as [Hnone _]. congruence. }
      pose proof (handleChunk_run s id i data isLast d a Hd Ha) as Hrun.
      cbn zeta in Hrun. destruct isLast.
      * rewrite (run_eq _ (completeDownload id) s _) by (by rewrite Hrun).
        match goal with
        | |- context [run (completeDownload id) (upd_downloads (<[id := ?x]>) s)] =>
            destruct (completeDownload_effect (upd_downloads (<[id := x]>) s) id x
                        (lookup_insert_eq (downloads s) id x))
              as (d' & Hd' & ? & ? & ? & ? & ? & ?)
        end.
        exists d'. cbn [downloads upd_downloads] in Hd'.
        rewrite insert_insert_eq in Hd'.
        split; [exact Hd'|]. do 5 (split; [assumption|]). assumption.
      * rewrite (run_is _ _ _ _ Hrun).
        cbn [downloads disk drawn upd_downloads].
        eexists. split; [done|]. by repeat split.
    + rewrite (run_is _ _ _ _ (handleChunk_deleted s id i data isLast d Hd Ha)).
      exists d. split; [by rewrite insert_id|].
      do 3 (split; [done|]). split; [exact Hset|]. by split.
  - by apply completeDownload_effect.
  - unfold run. rewrite (handleError_run s id reason d Hd). cbn zeta.
    destruct (redis_up s); cbn; eexists; (split; [done|]); by repeat split.
Qed.

Lemma perform_unknown (s : state) (op : operation) (id : string) :
  downloads s !! id = None → run (perform op id) s = s.
Proof.
  intros Hd. destruct op; cbn [perform]; unfold run.
  - by rewrite initializeDownload_unknown.
  - by rewrite handleChunk_unknown.
  - unfold completeDownload. monad_simpl. by rewrite Hd.
  - by rewrite handleError_unknown.
Qed.


(** A transfer frame is one of the operations, its exception swallowed. *)
Lemma transfer_frame_run (s : state) (ws : handle) (frame : Wire.from_agent) :
  match frame with
  | Wire.file_metadata id name size total =>
      run (Server.on_message ws frame) s = run (perform (onMetadata name size total) id) s
  | Wire.file_chunk id i data isLast =>
      run (Server.on_message ws frame) s = run (perform (onChunk i data isLast) id) s
  | Wire.error id reason =>
      run (Server.on_message ws frame) s = run (perform (fail reason) id) s
  | _ => True
  end.
Proof.
  destruct frame; try done; unfold Server.on_message, run, try_catch; cbn [perform].
  - by destruct (initializeDownload _ _ _ _ s) as [[?|?] ?].
  - by destruct (handleChunk _ _ _ _ s) as [[?|?] ?].
  - by destruct (handleError _ _ s) as [[?|?] ?].
Qed.

Lemma sound_quiet (s s' : state) :
  downloads s' = downloads s → disk s' = disk s → drawn s' = drawn s →
  sound s → sound s'.
Proof.
  intros Hd Hk Hn Hs id d Hid. rewrite Hd in Hid. destruct (Hs id d Hid) as [Hset Hfiled].
  split.
  - intros Hc. destruct (Hset Hc) as (? & p & ? & ?). split; [done|].
    exists p. by rewrite Hk.
  - unfold filed. by rewrite Hn.
Qed.

Lemma sound_perform (s : state) (op : operation) (id : string) :
  sound s → sound (run (perform op id) s).
Proof.
  intros Hs. destruct (downloads s !! id) as [d|] eqn:Hd.
  2:{ by rewrite perform_unknown. }
  destruct (Hs id d Hd) as [Hset [Hid Hdrawn]].
  destruct (perform_effect s op id d Hd Hset)
    as (d' & Hd' & Hid' & _ & _ & Hset' & Hn & Hdisk).
  intros j dj Hj. rewrite Hd' in Hj.
  destruct (decide (id = j)) as [<-|Hne].
  - rewrite lookup_insert_eq in Hj. injection Hj as <-.
    split; [done|]. split; [congruence|]. by rewrite Hn.
  - rewrite lookup_insert_ne in Hj by done. destruct (Hs j dj Hj) as [Hsetj Hfiledj].
    split.
    + intros Hc. destruct (Hsetj Hc) as (? & p & ? & ?). split; [done|].
      exists p. split; [done|]. by apply Hdisk.
    + unfold filed. by rewrite Hn.
Qed.

Lemma unregisterClient_quiet (s : state) (c : string) :
  let s' := run (ConnectionManager.unregisterClient c) s in
  downloads s' = downloads s ∧ disk s' = disk s ∧ drawn s' = drawn s.
Proof. unfold ConnectionManager.unregisterClient. monad_simpl. by case_store s. Qed.

Lemma close_quiet (s : state) (ws : handle) :
  let s' := run (Server.on_close ws) s in
  downloads s' = downloads s ∧ disk s' = disk s ∧ drawn s' = drawn s.
Proof.
  cbn zeta. unfold run. rewrite close_run. cbn zeta.
  destruct (sockets s !! ws ≫= bound_clientId) as [c|]; [|done].
  destruct (negb (c =? "")); [|done].
  apply (unregisterClient_quiet (upd_sockets (alter closed ws) s) c).
Qed.

Lemma register_quiet (s : state) (ws : handle) (c : string) :
  let s' := run (Server.on_message ws (Wire.register c)) s in
  downloads s' = downloads s ∧ disk s' = disk s ∧ drawn s' = drawn s.
Proof.
  unfold Server.on_message, ConnectionManager.registerClient. monad_simpl.
  by case_store s.
Qed.

(** The trigger either leaves the records alone or files one fresh record
    under the identifier it draws. *)
Lemma trigger_effect (s : state) (body : option string) :
  let s' := run (Server.post_download body) s in
  disk s' = disk s
  ∧ ((downloads s' = downloads s ∧ drawn s' = drawn s)
     ∨ (∃ fresh, downloads s' = <[uuidv4 (drawn s) := fresh]> (downloads s)
          ∧ drawn s' = S (drawn s)
          ∧ status fresh = initiated ∧ downloadId fresh = uuidv4 (drawn s))).
Proof.
  cbn zeta. unfold run.
  destruct (Server.post_download body s) as [o s'] eqn:Hr. cbn [snd].
  unfold Server.post_download, try_catch in Hr.
  destruct (JS.truthy body); cbn [negb] in Hr.
  2:{ injection Hr as _ <-. split; [done|by left]. }
  unfold mbind at 1 in Hr. unfold M_bind at 1 in Hr.
  rewrite isClientConnected_run in Hr.
  destruct (redis_up s) eqn:Hup.
  2:{ injection Hr as _ <-. split; [done|by left]. }
  match type of Hr with context [negb ?b] => destruct b end; cbn [negb] in Hr.
  2:{ injection Hr as _ <-. split; [done|by left]. }
  unfold mbind at 1 in Hr. unfold M_bind at 1 in Hr.
  pose proof (initiateDownload_run s (default "" body)) as Hinit.
  cbn zeta in Hinit. rewrite Hup in Hinit. rewrite Hinit in Hr.
  unfold ConnectionManager.getClientConnection in Hr. monad_simpl.
  destruct (connections s !! default "" body); injection Hr as _ <-; cbn;
    (split; [done|]); right; eexists; by repeat split.
Qed.

Lemma react_sound (e : event) (s : state) : sound s → sound (react e s).
Proof.
  intros Hs. destruct e as [ws cn|ws frame|ws|body|ms|up|ok]; cbn [react].
  - by apply (sound_quiet s).
  - pose proof (transfer_frame_run s ws frame) as Hframe.
    destruct frame as [c|id name size total|id i data isLast|id reason|t|].
    + destruct (register_quiet s ws c) as (? & ? & ?). by apply (sound_quiet s).
    + rewrite Hframe. by apply sound_perform.
    + rewrite Hframe. by apply sound_perform.
    + rewrite Hframe. by apply sound_perform.
    + done.
    + done.
  - destruct (close_quiet s ws) as (? & ? & ?). by apply (sound_quiet s).
  - destruct (trigger_effect s body) as [Hdisk [[Hd Hn]|(fresh & Hd & Hn & Hst & Hid)]].
    + by apply (sound_quiet s).
    + intros j dj Hj. rewrite Hd in Hj.
      destruct (decide (uuidv4 (drawn s) = j)) as [<-|Hne].
      * rewrite lookup_insert_eq in Hj. injection Hj as <-. split.
        -- intros Hc. congruence.
        -- split; [done|]. exists (drawn s). rewrite Hn. split; [lia|done].
      * rewrite lookup_insert_ne in Hj by done.
        destruct (Hs j dj Hj) as [Hsetj (Hidj & n & Hlt & Hn')]. split.
        -- intros Hc. destruct (Hsetj Hc) as (? & p & ? & ?). split; [done|].
           exists p. by rewrite Hdisk.
        -- split; [done|]. exists n. rewrite Hn. split; [lia|done].
  - by apply (sound_quiet s).
  - by apply (sound_quiet s).
  - by apply (sound_quiet s).
Qed.

Lemma history_sound (es : list event) : ∀ s, sound s → sound (history es s).
Proof.
  induction es as [|e es IH]; intros s Hs; [done|].
  cbn [history foldl]. apply IH. by apply react_sound.
Qed.

Lemma boot_sound (t : Z) : sound (boot t).
Proof. intros id d Hd. cbn in Hd. by rewrite lookup_empty in Hd. Qed.


(** One event never removes a record nor changes whom it belongs to. *)
Lemma react_keeps (e : event) (s : state) (id : string) (d : download) :
  (∀ n m, uuidv4 n = uuidv4 m → n = m) → sound s →
  downloads s !! id = Some d →
  ∃ d', downloads (react e s) !! id = Some d'
    ∧ clientId d' = clientId d ∧ startTime d' = startTime d.
Proof.
  intros Hinj Hs Hd.
  assert (∀ s', downloads s' = downloads s →
            ∃ d', downloads s' !! id = Some d'
              ∧ clientId d' = clientId d ∧ startTime d' = startTime d) as Hsame.
  { intros s' ->. by exists d. }
  assert (∀ op id0,
            ∃ d', downloads (run (perform op id0) s) !! id = Some d'
              ∧ clientId d' = clientId d ∧ startTime d' = startTime d) as Hop.
  { intros op id0. destruct (downloads s !! id0) as [d0|] eqn:Hd0.
    2:{ rewrite perform_unknown by done. by exists d. }
    destruct (perform_effect s op id0 d0 Hd0 (proj1 (Hs id0 d0 Hd0)))
      as (d' & Hd' & _ & Hc & Ht & _).
    rewrite Hd'. destruct (decide (id0 = id)) as [->|Hne].
    - rewrite lookup_insert_eq. exists d'. rewrite Hd in Hd0. injection Hd0 as ->.
      done.
    - rewrite lookup_insert_ne by done. by exists d. }
  destruct e as [ws cn|ws frame|ws|body|ms|up|ok]; cbn [react]; try by apply Hsame.
  - pose proof (transfer_frame_run s ws frame) as Hframe.
    destruct frame as [c|id0 name size total|id0 i data isLast|id0 reason|t|];
      try (rewrite Hframe; apply Hop).
    + apply Hsame. apply register_quiet.
    + by exists d.
    + by exists d.
  - apply Hsame. apply close_quiet.
  - destruct (trigger_effect s body) as [_ [[Hsd _]|(fresh & Hsd & _)]];
      [by apply Hsame|].
    rewrite Hsd. destruct (Hs id d Hd) as [_ (_ & n & Hlt & Hn)].
    rewrite lookup_insert_ne; [by exists d|].
    intros Heq. rewrite Hn in Heq. apply Hinj in Heq. lia.
Qed.

(** X14. In every state the coordinator can reach, a record whose status
    is [completed] has had its chunk buffers discarded and names an output
    path at which a file is on the disk; and a chunk frame for it, flagged
    last or not, is dropped without changing anything. *)
Theorem completed_is_settled (t : Z) (es : list event) (id : string) (d : download)
    (ws : handle) (i : nat) (data : string) (isLast : bool) :
  let s := history es (boot t) in
  downloads s !! id = Some d → status d = completed →
  chunks d = None
  ∧ (∃ path, filePath d = Some path ∧ is_Some (disk s !! path))
  ∧ Server.on_message ws (Wire.file_chunk id i data isLast) s = (Return (), s).
Proof.
  intros s Hd Hst.
  destruct (history_sound es (boot t) (boot_sound t) id d Hd) as [Hset _].
  destruct (Hset Hst) as [Hnone Hfile].
  split; [done|]. split; [done|].
  unfold Server.on_message, try_catch.
  by rewrite (handleChunk_deleted s id i data isLast d Hd Hnone).
Qed.

(** X15. In every state the coordinator can reach, each record is stored
    under its own [downloadId], which is one of the identifiers drawn so
    far. Hence, if [uuidv4] never repeats, the identifier the next trigger
    draws is not in use: the trigger creates a record and never overwrites
    one. *)
Theorem trigger_ids_are_new (t : Z) (es : list event) :
  (∀ n m, uuidv4 n = uuidv4 m → n = m) →
  let s := history es (boot t) in
  (∀ id d, downloads s !! id = Some d →
           downloadId d = id ∧ ∃ n, n < drawn s ∧ id = uuidv4 n)
  ∧ downloads s !! uuidv4 (drawn s) = None.
Proof.
  intros Hinj s.
  pose proof (history_sound es (boot t) (boot_sound t)) as Hs. fold s in Hs.
  split; [intros id d Hd; exact (proj2 (Hs id d Hd))|].
  destruct (downloads s !! uuidv4 (drawn s)) as [d|] eqn:Hd; [|done].
  destruct (Hs _ d Hd) as [_ (_ & n & Hlt & Hn)]. apply Hinj in Hn. lia.
Qed.

(** X16. No event deletes a transfer record or hands it to another
    identity: whatever happens after a record exists (frames, triggers,
    closed tunnels, store or disk failures), a record is still stored under
    the same identifier, for the same [clientId] and with the same
    [startTime], provided [uuidv4] never repeats. *)
Theorem records_persist (t : Z) (es es' : list event) (id : string) (d : download) :
  (∀ n m, uuidv4 n = uuidv4 m → n = m) →
  let s := history es (boot t) in
  downloads s !! id = Some d →
  ∃ d', downloads (history es' s) !! id = Some d'
    ∧ clientId d' = clientId d ∧ startTime d' = startTime d.
Proof.
  intros Hinj s Hd.
  assert (sound s) as Hs by apply (history_sound es (boot t) (boot_sound t)).
  clearbody s. revert s d Hd Hs.
  induction es' as [|e es' IH]; intros s d Hd Hs; [by exists d|].
  cbn [history foldl].
  destruct (react_keeps e s id d Hinj Hs Hd) as (d1 & Hd1 & Hc1 & Ht1).
  destruct (IH (react e s) d1 Hd1 (react_sound e s Hs)) as (d' & Hd' & Hc & Ht).
  exists d'. split; [exact Hd'|]. split; congruence.
Qed.

End Invariants.

Lemma demo_uuid_inj (n m : nat) : uuidv4 n = uuidv4 m → n = m.
Proof. cbn. intros Heq. apply String.app_inj in Heq. by apply pretty_nat_inj. Qed.

Lemma completed_is_settled_witness :
  let es := [accepted 1 ""; received 1 (Wire.register "site-1");
             triggered (Some "site-1");
             received 1 (Wire.file_metadata "transfer-0" "f.txt" 1 1);
             received 1 (Wire.file_chunk "transfer-0" 0 "YQ==" true)] in
  let s := history es (boot 0) in
  status <$> downloads s !! "transfer-0" = Some completed
  ∧ Server.on_message 1 (Wire.file_chunk "transfer-0" 0 "enoK" true) s = (Return (), s).
Proof.
  intros es s. split; [vm_compute; reflexivity|].
  destruct (downloads s !! "transfer-0") as [d|] eqn:Hd; [|vm_compute in Hd; discriminate].
  refine (proj2 (proj2 (completed_is_settled 0 es "transfer-0" d 1 0 "enoK" true Hd _))).
  assert (status <$> downloads s !! "transfer-0" = Some completed) as Hst
    by (vm_compute; reflexivity).
  rewrite Hd in Hst. by injection Hst.
Defined.

Lemma trigger_ids_are_new_witness :
  let s := history [accepted 1 ""; received 1 (Wire.register "site-1");
                    triggered (Some "site-1"); triggered (Some "site-1")] (boot 0) in
  downloads s !! "transfer-2" = None ∧ drawn s = 2.
Proof.
  intros s. split; [|reflexivity].
  pose proof (proj2 (trigger_ids_are_new 0
                [accepted 1 ""; received 1 (Wire.register "site-1");
                 triggered (Some "site-1"); triggered (Some "site-1")]
                demo_uuid_inj)) as Hnew.
  fold s in Hnew.
  assert (uuidv4 (drawn s) = "transfer-2") as E by (vm_compute; reflexivity).
  by rewrite E in Hnew.
Defined.

Lemma records_persist_witness :
  let s := history [accepted 1 ""; received 1 (Wire.register "site-1");
                    triggered (Some "site-1")] (boot 0) in
  ∃ d', downloads (history [received 1 (Wire.error "transfer-0" "gone");
                            hung_up 1; triggered (Some "site-1")] s)
          !! "transfer-0" = Some d'
    ∧ clientId d' = "site-1".
Proof.
  intros s.
  destruct (downloads s !! "transfer-0") as [d|] eqn:Hd; [|vm_compute in Hd; discriminate].
  destruct (records_persist 0 _ [received 1 (Wire.error "transfer-0" "gone");
                                 hung_up 1; triggered (Some "site-1")]
              "transfer-0" d demo_uuid_inj Hd) as (d' & Hd' & Hc & _).
  exists d'. split; [exact Hd'|]. rewrite Hc.
  assert (clientId <$> downloads s !! "transfer-0" = Some "site-1") as Hcl
    by (vm_compute; reflexivity).
  rewrite Hd in Hcl. by injection Hcl.
Defined.

(** ** The agent's stream of frames *)

Section Stream.
Import Emitter.

#[local] Arguments CHUNK_SIZE : simpl never.

Lemma CHUNK_SIZE_pos : (1 ≤ CHUNK_SIZE)%nat.
Proof. unfold CHUNK_SIZE. apply (Nat.mul_le_mono 1 1024 1 1024); lia. Qed.

(** The buffers of a stream, put end to end, are the file. *)
Lemma chunked_concat (n : nat) :
  (1 ≤ n)%nat → ∀ (fuel : nat) (l : JS.bytes), (length l ≤ fuel)%nat → concat (chunked fuel n l) = l.
Proof.
  intros Hn. induction fuel as [|fuel IH]; intros l Hl.
  - destruct l; [done|]. cbn in Hl. lia.
  - destruct l as [|b l]; [done|].
    change (chunked (S fuel) n (b :: l))
      with (take n (b :: l) :: chunked fuel n (drop n (b :: l))).
    cbn [concat]. rewrite IH.
    + apply take_drop.
    + rewrite length_drop. cbn [length] in *. lia.
Qed.

(** No buffer is empty and none is longer than the high-water mark. *)
Lemma chunked_sizes (n : nat) :
  (1 ≤ n)%nat → ∀ (fuel : nat) (l : JS.bytes),
  Forall (λ ch : JS.bytes, (1 ≤ length ch)%nat ∧ (length ch ≤ n)%nat) (chunked fuel n l).
Proof.
  intros Hn. induction fuel as [|fuel IH]; intros l; [constructor|].
  destruct l as [|b l]; [constructor|].
  change (chunked (S fuel) n (b :: l))
    with (take n (b :: l) :: chunked fuel n (drop n (b :: l))).
  constructor; [|apply IH].
  rewrite length_take. cbn [length]. lia.
Qed.

(** Their number is the quotient rounded up. *)
Lemma chunked_length (n : nat) :
  (1 ≤ n)%nat → ∀ (fuel : nat) (l : JS.bytes), (length l ≤ fuel)%nat →
  Z.of_nat (length (chunked fuel n l))
  = ((Z.of_nat (length l) + Z.of_nat n - 1) / Z.of_nat n)%Z.
Proof.
  intros Hn. induction fuel as [|fuel IH]; intros l Hl.
  - destruct l; [|cbn in Hl; lia]. cbn [chunked length].
    symmetry. apply Z.div_small. lia.
  - destruct l as [|b l].
    { cbn [chunked length]. symmetry. apply Z.div_small. lia. }
    change (chunked (S fuel) n (b :: l))
      with (take n (b :: l) :: chunked fuel n (drop n (b :: l))).
    cbn [length] in Hl.
    rewrite length_cons, Nat2Z.inj_succ, IH
      by (rewrite length_drop; cbn [length]; lia).
    rewrite length_drop. set (L := length (b :: l)).
    assert (1 ≤ L)%nat as HL by (unfold L; cbn [length]; lia).
    destruct (decide (n ≤ L)%nat) as [Hle|Hgt].
    + replace (Z.of_nat L + Z.of_nat n - 1)%Z
        with ((Z.of_nat (L - n) + Z.of_nat n - 1) + 1 * Z.of_nat n)%Z by lia.
      rewrite Z.div_add by lia. lia.
    + replace (L - n)%nat with 0%nat by lia.
      rewrite (Z.div_small (Z.of_nat 0 + Z.of_nat n - 1)) by lia.
      change (Z.succ 0) with 1%Z.
      apply (Z.div_unique _ _ 1 (Z.of_nat L - 1)); lia.
Qed.

Lemma read_stream_concat (content : JS.bytes) : concat (read_stream content) = content.
Proof. apply chunked_concat; [apply CHUNK_SIZE_pos|done]. Qed.

Lemma read_stream_length (content : JS.bytes) :
  Z.of_nat (length (read_stream content)) = chunk_count (length content).
Proof. apply chunked_length; [apply CHUNK_SIZE_pos|done]. Qed.

Lemma read_stream_empty (content : JS.bytes) : read_stream content = [] → content = [].
Proof. intros Hnil. by rewrite <- (read_stream_concat content), Hnil. Qed.

End Stream.

Section Frames.
Import Emitter.

Variable toString_base64 : JS.bytes → string.
Variable FILE_PATH : string.

#[local] Arguments CHUNK_SIZE : simpl never.
#[local] Arguments read_stream : simpl never.
#[local] Arguments chunk_count : simpl never.

(** The frames of a request for an existing file, with the number of
    buffers in place of the computed count. *)
Lemma handleDownloadRequest_frames (content : JS.bytes) (id filePath : string) :
  handleDownloadRequest toString_base64 FILE_PATH (Some content) id filePath
  = Wire.file_metadata id "sample-file.txt" (Z.of_nat (length content))
      (Z.of_nat (length (read_stream content)))
    :: imap (λ k ch, Wire.file_chunk id k (toString_base64 ch)
                       (bool_decide (S k = length (read_stream content))))
         (read_stream content).
Proof.
  unfold handleDownloadRequest. cbn zeta. rewrite <- read_stream_length.
  f_equal. apply imap_ext. intros k ch _. f_equal.
  apply bool_decide_ext. lia.
Qed.

(** The chunk frames as triples. *)
Lemma chunk_frames_triples (id : string) (N : nat) (l : list JS.bytes) :
  imap (λ k ch, Wire.file_chunk id k (toString_base64 ch) (bool_decide (S k = N))) l
  = map (chunk_frame id)
      (imap (λ k ch, (k, toString_base64 ch, bool_decide (S k = N))) l).
Proof.
  change (map (chunk_frame id)) with (fmap (M := list) (chunk_frame id)).
  by rewrite fmap_imap.
Qed.

Lemma triples_indexed (N : nat) (l : list JS.bytes) :
  map fst (imap (λ k ch, (k, toString_base64 ch, bool_decide (S k = N))) l)
  = imap (λ k ch, (k, toString_base64 ch)) l.
Proof.
  change (map fst) with (fmap (M := list) (@fst (nat * string) bool)).
  rewrite fmap_imap. by apply imap_ext.
Qed.

Lemma decoded_buffers (f : string → JS.bytes) (l : list JS.bytes) :
  Forall (λ ch, f (toString_base64 ch) = ch) l →
  map (λ x : nat * string, f x.2) (imap (λ k ch, (k, toString_base64 ch)) l) = l.
Proof.
  intros Hdec.
  change (map (λ x : nat * string, f x.2))
    with (fmap (M := list) (λ x : nat * string, f x.2)).
  rewrite fmap_imap.
  rewrite (imap_ext _ (const (λ ch, f (toString_base64 ch)))) by done.
  rewrite imap_const.
  induction Hdec as [|ch l Hch _ IH]; [done|].
  cbn [fmap list_fmap]. by rewrite Hch, IH.
Qed.

Lemma imap_indices (l : list JS.bytes) :
  (imap (λ k ch, (k, toString_base64 ch)) l).*1 = seq 0 (length l).
Proof.
  apply list_eq. intros i.
  rewrite list_lookup_fmap, list_lookup_imap.
  destruct (l !! i) as [ch|] eqn:Hi; cbn.
  - apply lookup_lt_Some in Hi. by rewrite lookup_seq_lt.
  - apply lookup_ge_None in Hi. by rewrite lookup_seq_ge.
Qed.

(** X17. The frames of a request for an existing file: the announcement
    carries the size of the file and the number of chunk frames that
    follow; the chunk frames are numbered from 0 in the order sent, only
    the last one is flagged; the buffers they encode are non-empty, at most
    [CHUNK_SIZE] bytes long, and put end to end they are the file. *)
Theorem emitted_frames (content : JS.bytes) (id filePath : string) :
  ∃ buffers : list JS.bytes,
    concat buffers = content
    ∧ Forall (λ ch : JS.bytes, (1 ≤ length ch)%nat ∧ (length ch ≤ CHUNK_SIZE)%nat) buffers
    ∧ handleDownloadRequest toString_base64 FILE_PATH (Some content) id filePath
      = Wire.file_metadata id "sample-file.txt" (Z.of_nat (length content))
          (Z.of_nat (length buffers))
        :: imap (λ k ch, Wire.file_chunk id k (toString_base64 ch)
                           (bool_decide (S k = length buffers)))
             buffers.
Proof.
  exists (read_stream content). split; [apply read_stream_concat|].
  split; [apply chunked_sizes, CHUNK_SIZE_pos|].
  apply handleDownloadRequest_frames.
Qed.

End Frames.

(** ** A transfer from the trigger to the file on disk *)

Section RoundTrip.
Context `{Platform}.
Import DownloadManager.

Variable toString_base64 : JS.bytes → string.
Variable FILE_PATH : string.

#[local] Arguments pretty : simpl never.
#[local] Arguments JS.array_set : simpl never.
#[local] Arguments percentage : simpl never.
#[local] Arguments JS.incr : simpl never.
#[local] Arguments destination : simpl never.
#[local] Arguments key : simpl never.
#[local] Arguments Emitter.CHUNK_SIZE : simpl never.
#[local] Arguments Emitter.read_stream : simpl never.
#[local] Arguments Emitter.chunk_count : simpl never.

(** [initializeDownload] on a known transfer. *)
Lemma initializeDownload_run (s : state) (id name : string) (size total : Z)
    (d : download) :
  downloads s !! id = Some d →
  let s1 := upd_downloads (<[id := assign_metadata name size total d]>) s in
  initializeDownload id name size total s =
    if redis_up s
    then (Return (), upd_redis (λ _, Redis.hmset (key id)
            [("fileName", name); ("fileSize", pretty size);
             ("totalChunks", pretty total); ("status", "downloading")] (redis s)) s1)
    else (Throw "Redis connection lost", s1).
Proof.
  intros Hd. unfold initializeDownload. monad_simpl. rewrite Hd. simpl.
  by case_store s.
Qed.

(** The announcement frame on a known transfer. *)
Lemma metadata_frame_run (s : state) (ws : handle) (id name : string)
    (size total : Z) (d : download) :
  downloads s !! id = Some d →
  let s' := run (Server.on_message ws (Wire.file_metadata id name size total)) s in
  downloads s' = <[id := assign_metadata name size total d]> (downloads s)
  ∧ disk s' = disk s ∧ fs_calls s' = fs_calls s
  ∧ disk_ok s' = disk_ok s ∧ redis_up s' = redis_up s.
Proof.
  intros Hd. cbn zeta.
  pose proof (initializeDownload_run s id name size total d Hd) as Hrun.
  cbn zeta in Hrun.
  unfold Server.on_message, run, try_catch. rewrite Hrun.
  by destruct (redis_up s) eqn:Hup; cbn; rewrite ?Hup.
Qed.

(** Chunk frames whose indices are a rearrangement of [0 .. N-1], the last
    one arriving flagged, on a transfer without chunks yet, the disk and
    the store working. *)
Lemma deliver_completes (s : state) (ws : handle) (id : string)
    (d : download) (N : nat) (pre : list (nat * string * bool))
    (i : nat) (data : string) (sorted : list (nat * string)) :
  downloads s !! id = Some d → chunks d = Some [] →
  Forall (λ c, c.2 = false) pre →
  Permutation sorted (map fst (pre ++ [(i, data, true)])) →
  sorted.*1 = seq 0 N →
  disk_ok s = true → redis_up s = true →
  let s' := deliver ws (map (chunk_frame id) (pre ++ [(i, data, true)])) s in
  let file := concat (map (λ c, base64_decode c.2) sorted) in
  ∃ d', downloads s' !! id = Some d'
    ∧ status d' = completed ∧ chunks d' = None
    ∧ filePath d' = Some (destination d)
    ∧ disk s' !! destination d = Some file
    ∧ fs_calls s' = fs_calls s ++ [(destination d, file)].
Proof.
  intros Hd Hch Hall Hperm Hseq Hok Hup. cbn zeta.
  unfold deliver. rewrite map_app, foldl_app. cbn [map foldl].
  fold (deliver ws (map (chunk_frame id) pre) s).
  destruct (deliver_fills ws id pre s d [] Hd Hch Hall)
    as (d1 & Hd1 & Hch1 & Hdest & _ & Hdisk & Hcalls & Hok1 & Hup1).
  set (s1 := deliver ws (map (chunk_frame id) pre) s) in *.
  rewrite chunk_frame_run. cbn [fst snd].
  pose proof (handleChunk_run s1 id i data true d1 _ Hd1 Hch1) as Hrun.
  cbn zeta in Hrun.
  rewrite (run_eq _ (completeDownload id) s1 _) by (by rewrite Hrun).
  clear Hrun.
  match goal with
  | |- context [run (completeDownload id) (upd_downloads (<[id := ?x]>) s1)] =>
      set (d2 := x) in *;
      pose proof (completeDownload_run (upd_downloads (<[id := d2]>) s1) id d2
                    (lookup_insert_eq (downloads s1) id d2)) as Hcases
  end.
  assert (JS.Buffer_concat
            (JS.array_set
               (foldl (λ a c, JS.array_set a c.1 (base64_decode c.2)) [] (map fst pre))
               i (base64_decode data))
          = Some (concat (map (λ c, base64_decode c.2) sorted))) as Hfull.
  { rewrite <- (fill_assembles base64_decode N (map fst (pre ++ [(i, data, true)])) sorted)
      by done.
    by rewrite map_app, foldl_app. }
  assert (destination d2 = destination d) as Hdest2 by (by rewrite <- Hdest).
  destruct Hcases as [(e & Habs & _)|(a & b & Ha & Hb & Hrun)].
  { specialize (Habs _ eq_refl). congruence. }
  cbn [chunks d2 assign_chunk] in Ha. injection Ha as <-.
  rewrite Hfull in Hb. injection Hb as <-.
  cbn zeta in Hrun. cbn [redis_up disk_ok upd_downloads] in Hrun.
  rewrite Hup1, Hok1, Hdest2, Hok, Hup in Hrun.
  rewrite (run_is _ _ _ _ Hrun).
  cbn [disk fs_calls downloads upd_redis upd_downloads upd_disk upd_fs_calls].
  eexists. split; [apply lookup_insert_eq|].
  cbn [status chunks filePath assign_completed]. rewrite Hcalls.
  split; [done|]. split; [done|]. split; [done|].
  split; [apply lookup_insert_eq|done].
Qed.

(** X18. A transfer from end to end. The trigger is called for a connected
    identity, the agent answers the work request it is sent with the frames
    for a non-empty file, and the coordinator handles them in order, disk
    and store working, the decoder undoing the agent's encoding on each
    buffer. Then the record is [completed], its chunks are gone, and the
    file written under [downloadDir], named after the identity and
    [sample-file.txt], has exactly the content of the agent's file; it is
    the only write. *)
Theorem transfer_round_trip (s : state) (c : string) (ws : handle)
    (content : JS.bytes) :
  c ≠ "" → result (ConnectionManager.isClientConnected c) s = Return true →
  connections s !! c = Some ws →
  disk_ok s = true →
  content ≠ [] →
  Forall (λ ch, base64_decode (toString_base64 ch) = ch) (Emitter.read_stream content) →
  let id := uuidv4 (drawn s) in
  let request := Wire.download_request id "/data/sample-file.txt" in
  let s1 := run (Server.post_download (Some c)) s in
  let s2 := deliver ws (Emitter.on_message toString_base64 FILE_PATH (Some content) request) s1 in
  let path := path_join downloadDir (c +:+ "_sample-file.txt") in
  (last ∘ sent <$> sockets s1 !! ws) = (λ _, Some request) <$> sockets s !! ws
  ∧ ∃ d, downloads s2 !! id = Some d
      ∧ status d = completed ∧ chunks d = None
      ∧ filePath d = Some path
      ∧ disk s2 !! path = Some content
      ∧ fs_calls s2 = fs_calls s ++ [(path, content)].
Proof.
  intros Hc Htrue Hws Hok Hne Hdec. cbn zeta.
  destruct (post_download_connected s c ws Hc Htrue Hws) as [Hup Hrun].
  pose proof (initiateDownload_run s c) as Hinit. cbn zeta in Hinit.
  rewrite Hup in Hinit.
  rewrite (run_is _ _ _ _ Hrun). rewrite Hinit. cbn [snd].
  set (id := uuidv4 (drawn s)) in *.
  match goal with
  | |- context [upd_downloads (<[id := ?x]>) (upd_drawn S s)] => set (fresh := x) in *
  end.
  match goal with
  | |- context [deliver ws _ ?x] => set (s1 := x)
  end.
  split.
  { unfold s1. cbn [sockets upd_sockets upd_redis upd_downloads upd_drawn].
    rewrite lookup_alter_eq. destruct (sockets s !! ws) as [k|]; [|done].
    cbn. unfold record_sent. cbn. by rewrite last_snoc. }
  cbn [Emitter.on_message]. rewrite handleDownloadRequest_frames.
  set (buffers := Emitter.read_stream content) in *.
  rewrite chunk_frames_triples.
  assert (downloads s1 !! id = Some fresh) as Hfresh.
  { unfold s1. cbn [downloads upd_sockets upd_redis upd_downloads].
    apply lookup_insert_eq. }
  unfold deliver. cbn [foldl].
  destruct (metadata_frame_run s1 ws id "sample-file.txt"
              (Z.of_nat (length content)) (Z.of_nat (length buffers)) fresh Hfresh)
    as (Hd2 & Hdisk2 & Hcalls2 & Hok2 & Hup2).
  match goal with
  | |- context [foldl _ ?x (map (chunk_frame id) _)] => set (s2 := x) in *
  end.
  fold (deliver ws (map (chunk_frame id)
          (imap (λ k ch, (k, toString_base64 ch, bool_decide (S k = length buffers)))
             buffers)) s2).
  destruct (decide (buffers = [])) as [Hnil|Hsome].
  { by apply read_stream_empty in Hnil. }
  destruct (exists_last Hsome) as (front & final & Hsplit).
  set (d2 := assign_metadata "sample-file.txt" (Z.of_nat (length content))
               (Z.of_nat (length buffers)) fresh) in *.
  assert (downloads s2 !! id = Some d2) as Hd2'.
  { rewrite Hd2. apply lookup_insert_eq. }
  assert (imap (λ k ch, (k, toString_base64 ch, bool_decide (S k = length buffers)))
            buffers
          = imap (λ k ch, (k, toString_base64 ch, bool_decide (S k = length buffers)))
              front
            ++ [(length front, toString_base64 final, true)]) as Hcs.
  { etransitivity; [exact (f_equal (imap _) Hsplit)|].
    rewrite imap_app. cbn [imap]. rewrite Nat.add_0_r. do 3 f_equal.
    apply bool_decide_eq_true. rewrite Hsplit, length_app. cbn. lia. }
  pose proof (deliver_completes s2 ws id d2 (length buffers)
                (imap (λ k ch, (k, toString_base64 ch, bool_decide (S k = length buffers)))
                   front)
                (length front) (toString_base64 final)
                (imap (λ k ch, (k, toString_base64 ch)) buffers)
                Hd2' eq_refl) as Hdone.
  cbn zeta in Hdone. rewrite <- Hcs in Hdone.
  destruct Hdone as (d' & Hd' & Hst & Hch & Hpath & Hfile & Hcalls).
  - apply Forall_lookup. intros k x Hk.
    rewrite list_lookup_imap in Hk.
    destruct (front !! k) as [ch|] eqn:Hfk; [|done].
    injection Hk as <-. cbn. apply bool_decide_eq_false.
    apply lookup_lt_Some in Hfk. rewrite Hsplit, length_app. cbn. lia.
  - by rewrite triples_indexed.
  - apply imap_indices.
  - by rewrite Hok2.
  - by rewrite Hup2.
  - assert (concat (map (λ x : nat * string, base64_decode x.2)
                      (imap (λ k ch, (k, toString_base64 ch)) buffers)) = content) as Hcontent.
    { etransitivity; [|exact (read_stream_concat content)]. f_equal.
      by apply decoded_buffers. }
    rewrite Hcontent in Hfile, Hcalls.
    assert (destination d2 = path_join downloadDir (c +:+ "_sample-file.txt")) as Hdest
      by done.
    rewrite Hdest in Hpath, Hfile, Hcalls.
    exists d'. split; [exact Hd'|]. split; [exact Hst|]. split; [exact Hch|].
    split; [exact Hpath|]. split; [exact Hfile|].
    rewrite Hcalls, Hcalls2. done.
Qed.

(** X19. An empty file. The agent sends the announcement with size 0 and
    count 0 and no chunk frame, so nothing is flagged as last: the record
    is left in status [downloading], and nothing is written. *)
Theorem empty_file_stays_downloading (s : state) (ws : handle)
    (id filePath : string) (d : download) :
  downloads s !! id = Some d →
  let frames := Emitter.on_message toString_base64 FILE_PATH (Some [])
                  (Wire.download_request id filePath) in
  let s' := deliver ws frames s in
  frames = [Wire.file_metadata id "sample-file.txt" 0 0]
  ∧ ∃ d', downloads s' !! id = Some d'
      ∧ status d' = downloading ∧ totalChunks d' = Some 0%Z
      ∧ chunks d' = chunks d
      ∧ fs_calls s' = fs_calls s ∧ disk s' = disk s.
Proof.
  intros Hd. cbn zeta. cbn [Emitter.on_message].
  rewrite handleDownloadRequest_frames.
  change (Emitter.read_stream []) with (@nil JS.bytes).
  cbn [length imap]. change (Z.of_nat 0) with 0%Z. split; [done|].
  unfold deliver. cbn [foldl].
  destruct (metadata_frame_run s ws id "sample-file.txt" 0 0 d Hd)
    as (Hd' & Hdisk & Hcalls & _).
  eexists. split; [rewrite Hd'; apply lookup_insert_eq|]. done.
Qed.

(** X20. A missing file. The agent sends a single error frame naming its
    own [FILE_PATH], whatever path was requested; the coordinator marks the
    record [failed] with that message and the current time as end time,
    keeps its chunks and writes nothing. *)
Theorem missing_file_fails_transfer (s : state) (ws : handle)
    (id filePath : string) (d : download) :
  downloads s !! id = Some d →
  let frames := Emitter.on_message toString_base64 FILE_PATH None
                  (Wire.download_request id filePath) in
  let s' := deliver ws frames s in
  ∃ d', downloads s' !! id = Some d'
    ∧ status d' = failed
    ∧ error d' = Some ("File not found: " +:+ FILE_PATH)
    ∧ endTime d' = Some (clock s)
    ∧ chunks d' = chunks d
    ∧ fs_calls s' = fs_calls s ∧ disk s' = disk s.
Proof.
  intros Hd. cbn zeta.
  cbn [Emitter.on_message Emitter.handleDownloadRequest]. unfold deliver. cbn [foldl].
  pose proof (transfer_frame_run s ws
                (Wire.error id ("File not found: " +:+ FILE_PATH))) as Hframe.
  cbn beta iota in Hframe. rewrite Hframe. cbn [perform].
  destruct (handleError_fields s id ("File not found: " +:+ FILE_PATH) d Hd)
    as (Hd' & Hdisk & Hcalls & _).
  eexists. split; [rewrite Hd'; apply lookup_insert_eq|]. done.
Qed.

(** The progress formula when no count was announced. *)
Lemma percentage_undefined (received : Z) : percentage received None = JS.NaN.
Proof.
  unfold percentage, JS.to_number, JS.div, JS.mul, JS.NaN.
  by destruct (JS.of_Z received) as [[]|[]| |[] ? ?].
Qed.

(** X21. A chunk handled before any announcement. The count is undefined,
    the quotient is not a number, and so is the stored progress; the
    listing of all transfers reports 0 for the record. *)
Theorem progress_before_metadata (s : state) (id : string) (i : nat)
    (data : string) (isLast : bool) (d : download) (a : JS.array) :
  downloads s !! id = Some d → chunks d = Some a → totalChunks d = None →
  let s' := run (handleChunk id i data isLast) s in
  ∃ d', downloads s' !! id = Some d'
    ∧ progress d' = JS.NaN
    ∧ ∃ l, result Snapshot.getAllDownloads s' = Return l
        ∧ Snapshot.summarize d' ∈ l
        ∧ Snapshot.sum_progress (Snapshot.summarize d') = JS.of_Z 0.
Proof.
  intros Hd Ha Htotal. cbn zeta.
  pose proof (handleChunk_run s id i data isLast d a Hd Ha) as Hrun.
  cbn zeta in Hrun. rewrite Htotal, percentage_undefined in Hrun.
  assert (∃ d', downloads (run (handleChunk id i data isLast) s) !! id = Some d'
                ∧ progress d' = JS.NaN) as (d' & Hd' & Hp).
  { destruct isLast.
    - rewrite (run_eq _ (completeDownload id) s _) by (by rewrite Hrun).
      match goal with
      | |- context [upd_downloads (<[id := ?x]>) s] =>
          destruct (completeDownload_record (upd_downloads (<[id := x]>) s) id x
                      (lookup_insert_eq (downloads s) id x))
            as (d' & Hd' & _ & _ & Hp & _)
      end.
      exists d'. split; [exact Hd'|]. by rewrite Hp.
    - rewrite (run_is _ _ _ _ Hrun). eexists.
      split; [apply lookup_insert_eq|done]. }
  exists d'. split; [exact Hd'|]. split; [exact Hp|].
  eexists. split; [reflexivity|]. split.
  - apply (list_elem_of_fmap_2 (λ kv : string * download, Snapshot.summarize kv.2)
             _ (id, d')).
    by apply elem_of_map_to_list.
  - cbn. by rewrite Hp.
Qed.

End RoundTrip.

Lemma transfer_round_trip_witness :
  let s := history [accepted 1 ""; received 1 (Wire.register "site-1")] (boot 0) in
  let content := [Byte.x68; Byte.x65; Byte.x6c; Byte.x6c; Byte.x6f] in
  let request := Wire.download_request "transfer-0" "/data/sample-file.txt" in
  let s1 := run (Server.post_download (Some "site-1")) s in
  let s2 := deliver 1 (Emitter.on_message Base64Text.encode "/agent/sample-file.txt"
                         (Some content) request) s1 in
  disk s2 !! "/srv/downloads/site-1_sample-file.txt" = Some content
  ∧ status <$> downloads s2 !! "transfer-0" = Some completed.
Proof.
  intros s content request s1 s2.
  assert (Emitter.read_stream content = [content]) as Hstream
    by (vm_compute; reflexivity).
  destruct (transfer_round_trip Base64Text.encode "/agent/sample-file.txt"
              s "site-1" 1 content) as (_ & d & Hd & Hst & _ & _ & Hfile & _).
  - discriminate.
  - vm_compute; reflexivity.
  - vm_compute; reflexivity.
  - vm_compute; reflexivity.
  - discriminate.
  - rewrite Hstream. constructor; [vm_compute; reflexivity|constructor].
  - split; [exact Hfile|].
    etransitivity; [exact (f_equal (fmap status) Hd)|].
    cbn. by rewrite Hst.
Defined.

Lemma empty_file_stays_downloading_witness :
  let s := history [accepted 1 ""; received 1 (Wire.register "site-1");
                    triggered (Some "site-1")] (boot 0) in
  let s' := deliver 1 (Emitter.on_message Base64Text.encode "/agent/sample-file.txt"
                         (Some []) (Wire.download_request "transfer-0" "/data/sample-file.txt")) s in
  status <$> downloads s' !! "transfer-0" = Some downloading ∧ fs_calls s' = [].
Proof.
  intros s s'.
  destruct (downloads s !! "transfer-0") as [d|] eqn:Hd; [|vm_compute in Hd; discriminate].
  destruct (empty_file_stays_downloading Base64Text.encode "/agent/sample-file.txt"
              s 1 "transfer-0" "/data/sample-file.txt" d Hd)
    as (_ & d' & Hd' & Hst & _ & _ & Hcalls & _).
  fold s' in Hd', Hcalls. rewrite Hd', Hcalls. cbn. by rewrite Hst.
Defined.

Lemma missing_file_fails_transfer_witness :
  let s := history [accepted 1 ""; received 1 (Wire.register "site-1");
                    triggered (Some "site-1")] (boot 0) in
  let s' := deliver 1 (Emitter.on_message Base64Text.encode "/agent/sample-file.txt"
                         None (Wire.download_request "transfer-0" "/data/sample-file.txt")) s in
  (downloads s' !! "transfer-0") ≫= error
  = Some "File not found: /agent/sample-file.txt".
Proof.
  intros s s'.
  destruct (downloads s !! "transfer-0") as [d|] eqn:Hd; [|vm_compute in Hd; discriminate].
  destruct (missing_file_fails_transfer Base64Text.encode "/agent/sample-file.txt"
              s 1 "transfer-0" "/data/sample-file.txt" d Hd)
    as (d' & Hd' & _ & Herr & _).
  fold s' in Hd'. rewrite Hd'. cbn. by rewrite Herr.
Defined.

Lemma progress_before_metadata_witness :
  let s := history [accepted 1 ""; received 1 (Wire.register "site-1");
                    triggered (Some "site-1")] (boot 0) in
  let s' := run (DownloadManager.handleChunk "transfer-0" 0 "YQ==" false) s in
  progress <$> downloads s' !! "transfer-0" = Some JS.NaN.
Proof.
  intros s s'.
  destruct (downloads s !! "transfer-0") as [d|] eqn:Hd; [|vm_compute in Hd; discriminate].
  assert (chunks <$> downloads s !! "transfer-0" = Some (Some [])) as Hch
    by (vm_compute; reflexivity).
  assert (totalChunks <$> downloads s !! "transfer-0" = Some None) as Htot
    by (vm_compute; reflexivity).
  rewrite Hd in Hch, Htot. injection Hch as Hch. injection Htot as Htot.
  destruct (progress_before_metadata s "transfer-0" 0 "YQ==" false d [] Hd Hch Htot)
    as (d' & Hd' & Hp & _).
  fold s' in Hd'. rewrite Hd'. cbn. by rewrite Hp.
Defined.
